(** * Office locator filter and comment store of the driver-licence guide

    Shallow embedding of [filterDmvs] and of the [CommentSection] component
    (load effect, save effect, [handleSubmit]) of
    [international_student_dl_step_1_website.jsx], with the properties the
    specification states about them.

    Strings are sequences of code units below 256 (Latin-1); on that range
    [String.prototype.toLowerCase] and [String.prototype.trim] act unit by
    unit, which is what the definitions of module [JS] write out. What the
    filter does on text beyond that range, where lowercasing depends on
    the context, is stated over any alphabet of code units (module
    [Units]). *)

From Stdlib Require Import Ascii NArith ZArith Bool DecimalString.
From stdpp Require Import gmap strings list.

(** ** The string built-ins the source calls *)

Module JS.

(** Code units that [trim] strips: TAB, LF, VT, FF, CR, SPACE and NBSP. *)
Definition is_whitespace (c : ascii) : bool :=
  let n := N_of_ascii c in
  (((9 <=? n) && (n <=? 13)) || (n =? 32) || (n =? 160))%N.

(** [toLowerCase] on one code unit: A-Z, and the Latin-1 capitals
    U+00C0-U+00DE without the multiplication sign U+00D7. *)
Definition lower_unit (c : ascii) : ascii :=
  let n := N_of_ascii c in
  if (((65 <=? n) && (n <=? 90))
      || ((192 <=? n) && (n <=? 222) && negb (n =? 215)))%N
  then ascii_of_N (n + 32)
  else c.

Fixpoint toLowerCase (s : string) : string :=
  match s with
  | EmptyString => EmptyString
  | String c s' => String (lower_unit c) (toLowerCase s')
  end.

Fixpoint trimStart (s : string) : string :=
  match s with
  | EmptyString => EmptyString
  | String c s' => if is_whitespace c then trimStart s' else s
  end.

Fixpoint trimEnd (s : string) : string :=
  match s with
  | EmptyString => EmptyString
  | String c s' =>
      match trimEnd s' with
      | EmptyString => if is_whitespace c then EmptyString else String c EmptyString
      | r => String c r
      end
  end.

Definition trim (s : string) : string := trimEnd (trimStart s).

(** [s.includes(search)]: [search] occurs in [s] at some position. *)
Fixpoint includes (s search : string) : bool :=
  if String.prefix search s then true
  else match s with
       | EmptyString => false
       | String _ s' => includes s' search
       end.

(** [!s] for a string [s]: only the empty string is falsy. *)
Definition not_string (s : string) : bool :=
  match s with EmptyString => true | _ => false end.

End JS.

(** ** Locator filter *)

Record DmvOffice := { name : string; address : string; phone : string }.

(** The template literal [`${d.name} ${d.address} ${d.phone}`]. *)
Definition office_text (d : DmvOffice) : string :=
  name d +:+ " " +:+ address d +:+ " " +:+ phone d.

Definition filterDmvs (permitDmvs : list DmvOffice) (query : string)
  : list DmvOffice :=
  let q := JS.toLowerCase (JS.trim query) in
  if JS.not_string q then permitDmvs
  else List.filter
         (fun d => JS.includes (JS.toLowerCase (office_text d)) q)
         permitDmvs.

(** *** The specification's vocabulary for the filter *)

(** [t] occurs in [s] as a contiguous run of code units. *)
Definition substring_of (t s : string) : Prop :=
  exists pre post, s = pre +:+ t +:+ post.

(** Two strings that differ by letter case only. *)
Definition case_variant (a b : string) : Prop :=
  JS.toLowerCase a = JS.toLowerCase b.

(** ** Values, exceptions and the JSON interface *)

(** The values [JSON.parse] returns and the component stores. Numbers are
    integers here: the code only asks [typeof] of a parsed number and
    creates integer timestamps with [Date.now()]. An object is the list
    of its own properties in insertion order. *)
#[warnings="-register-all"] Inductive value :=
| VUndefined
| VNull
| VBool (b : bool)
| VNum (n : Z)
| VStr (s : string)
| VArr (items : list value)
| VObj (props : list (string * value)).

Inductive exn := TypeError | SyntaxError | QuotaExceededError.

Inductive result (A : Type) :=
| Ok (a : A)
| Throw (e : exn).
Arguments Ok {A} a.
Arguments Throw {A} e.

Module Val.

(** ToBoolean. *)
Definition truthy (v : value) : bool :=
  match v with
  | VUndefined | VNull => false
  | VBool b => b
  | VNum n => negb (n =? 0)%Z
  | VStr s => negb (JS.not_string s)
  | VArr _ | VObj _ => true
  end.

Definition typeof (v : value) : string :=
  match v with
  | VUndefined => "undefined"
  | VNull | VArr _ | VObj _ => "object"
  | VBool _ => "boolean"
  | VNum _ => "number"
  | VStr _ => "string"
  end.

(** [v === s] for a string literal [s]. *)
Definition is_string (v : value) (s : string) : bool :=
  match v with
  | VStr t => String.eqb t s
  | _ => false
  end.

Fixpoint own (props : list (string * value)) (k : string) : value :=
  match props with
  | [] => VUndefined
  | (k', v) :: rest => if String.eqb k' k then v else own rest k
  end.

(** [x.k] for a key that no prototype defines (the code reads [type],
    [text] and [createdAt] only): a TypeError on [null] and
    [undefined], the own property of an object, [undefined] otherwise. *)
Definition get (x : value) (k : string) : result value :=
  match x with
  | VUndefined | VNull => Throw TypeError
  | VObj props => Ok (own props k)
  | VBool _ | VNum _ | VStr _ | VArr _ => Ok VUndefined
  end.

End Val.

(** The two built-ins of the [JSON] object, with the one fact about
    [JSON.parse] the component relies on: the empty text is no JSON.
    [JSON_parse] gives [None] where [JSON.parse] throws a SyntaxError. *)
Class JSON := {
  JSON_parse : string -> option value;
  JSON_stringify : value -> string;
  JSON_parse_empty : JSON_parse "" = None
}.

(** ** The world of the component: storage and its write failures *)

(** [localStorage] with the outcomes of the coming [setItem] calls
    ([false]: the call throws, as on an exceeded quota; none left: it
    succeeds) and the log of the calls made, newest first. *)
Record world := {
  localStorage : gmap string string;
  write_outcomes : list bool;
  attempts : list (string * string * bool)
}.

(** Computations that read and write the world and may throw. *)
Definition M (A : Type) : Type := world -> result A * world.

Definition ret {A} (a : A) : M A := fun w => (Ok a, w).

Definition throw {A} (e : exn) : M A := fun w => (Throw e, w).

Definition bind {A B} (c : M A) (k : A -> M B) : M B :=
  fun w =>
    match c w with
    | (Ok a, w') => k a w'
    | (Throw e, w') => (Throw e, w')
    end.

Definition try_catch {A} (body : M A) (handler : exn -> M A) : M A :=
  fun w =>
    match body w with
    | (Ok a, w') => (Ok a, w')
    | (Throw e, w') => handler e w'
    end.

Definition lift {A} (r : result A) : M A := fun w => (r, w).

Notation "x <- c ;; k" := (bind c (fun x => k))
  (at level 100, c at next level, right associativity).

Definition getItem (k : string) : M (option string) :=
  fun w => (Ok (localStorage w !! k), w).

Definition setItem (k v : string) : M unit :=
  fun w =>
    match write_outcomes w with
    | false :: rest =>
        (Throw QuotaExceededError,
         {| localStorage := localStorage w;
            write_outcomes := rest;
            attempts := (k, v, false) :: attempts w |})
    | outcomes =>
        (Ok tt,
         {| localStorage := <[k := v]> (localStorage w);
            write_outcomes := tail outcomes;
            attempts := (k, v, true) :: attempts w |})
    end.

(** ** Comment store *)

Inductive CommentType := GeneralComment | RequestToEditSteps.

Definition type_string (t : CommentType) : string :=
  match t with
  | GeneralComment => "General Comment"
  | RequestToEditSteps => "Request to Edit Steps"
  end.

Definition STORAGE_KEY : string := "stl_intl_dl_comments_v1".

(** The state of [CommentSection]: its three [useState] cells. *)
Record state := {
  type : CommentType;
  text : string;
  comments : list value
}.

Definition initial_state : state :=
  {| type := GeneralComment; text := ""; comments := [] |}.

(** Short-circuit [&&] and [||] on tests that may throw. *)
Definition and_then (a b : result bool) : result bool :=
  match a with
  | Ok true => b
  | Ok false => Ok false
  | Throw e => Throw e
  end.

Definition or_else (a b : result bool) : result bool :=
  match a with
  | Ok true => Ok true
  | Ok false => b
  | Throw e => Throw e
  end.

Definition test_prop (x : value) (k : string) (p : value -> bool)
  : result bool :=
  match Val.get x k with
  | Ok v => Ok (p v)
  | Throw e => Throw e
  end.

(** The callback of the load effect's [filter], as a truth value:
    [x && (x.type === ... || x.type === ...) && typeof x.text === "string"
       && typeof x.createdAt === "number"]. *)
Definition shape_check (x : value) : result bool :=
  and_then (Ok (Val.truthy x))
    (and_then
       (or_else
          (test_prop x "type" (fun v => Val.is_string v "General Comment"))
          (test_prop x "type" (fun v => Val.is_string v "Request to Edit Steps")))
       (and_then
          (test_prop x "text" (fun v => String.eqb (Val.typeof v) "string"))
          (test_prop x "createdAt"
             (fun v => String.eqb (Val.typeof v) "number")))).

(** [Array.prototype.filter] with a callback that may throw. *)
Fixpoint array_filter (p : value -> result bool) (xs : list value)
  : result (list value) :=
  match xs with
  | [] => Ok []
  | x :: rest =>
      match p x with
      | Throw e => Throw e
      | Ok b =>
          match array_filter p rest with
          | Throw e => Throw e
          | Ok kept => Ok (if b then x :: kept else kept)
          end
      end
  end.

(** [xs.slice(0, n)]. *)
Definition slice0 (n : nat) (xs : list value) : list value := take n xs.
Arguments slice0 : simpl never.

Section Component.

Context {J : JSON}.

Definition parse (raw : string) : M value :=
  match JSON_parse raw with
  | Some v => ret v
  | None => throw SyntaxError
  end.

(** The load effect. Its result is the argument of [setComments] when
    the effect calls it, [None] when it returns before. *)
Definition load_effect : M (option (list value)) :=
  try_catch
    (raw <- getItem STORAGE_KEY ;;
     match raw with
     | None => ret None
     | Some raw =>
         if JS.not_string raw then ret None
         else
           parsed <- parse raw ;;
           match parsed with
           | VArr items =>
               kept <- lift (array_filter shape_check items) ;;
               ret (Some (slice0 200 kept))
           | _ => ret None
           end
     end)
    (fun _ => ret None).

(** The save effect, run after a render whose [comments] is a new
    array. *)
Definition save_effect (cs : list value) : M unit :=
  try_catch
    (setItem STORAGE_KEY (JSON_stringify (VArr cs)))
    (fun _ => ret tt).

(** Mounting the component: the first render has [comments = []]; its
    effects run in source order, the load effect first; a call of
    [setComments] there gives a second render, after which the save
    effect runs again ([safe] is a new array). *)
Definition mount : M state :=
  update <- load_effect ;;
  _ <- save_effect (comments initial_state) ;;
  match update with
  | None => ret initial_state
  | Some safe =>
      _ <- save_effect safe ;;
      ret {| type := type initial_state;
             text := text initial_state;
             comments := safe |}
  end.

(** [handleSubmit], with the value [Date.now()] returns as [now]. The
    flag tells whether [setComments] was called. *)
Definition handleSubmit (now : Z) (st : state) : state * bool :=
  let trimmed := JS.trim (text st) in
  if JS.not_string trimmed then (st, false)
  else
    ({| type := type st;
        text := "";
        comments :=
          VObj [("type", VStr (type_string (type st)));
                ("text", VStr trimmed);
                ("createdAt", VNum now)] :: comments st |},
     true).

(** The events of the form: the two [onChange] handlers and the click
    on the submit button at time [now]. *)
Inductive event :=
| ChangeType (t : CommentType)
| ChangeText (s : string)
| ClickSubmit (now : Z).

(** One event and the render that follows it. The save effect depends on
    [comments] alone: it runs when the handler called [setComments], and
    not after [setType] or [setText]. *)
Definition step (ev : event) (st : state) : M state :=
  match ev with
  | ChangeType t =>
      ret {| type := t; text := text st; comments := comments st |}
  | ChangeText s =>
      ret {| type := type st; text := s; comments := comments st |}
  | ClickSubmit now =>
      let (st', changed) := handleSubmit now st in
      if changed then _ <- save_effect (comments st') ;; ret st'
      else ret st'
  end.

Fixpoint run (evs : list event) (st : state) : M state :=
  match evs with
  | [] => ret st
  | ev :: rest => st' <- step ev st ;; run rest st'
  end.

(** The specification's [submit(kind, rawText)], called at time [now]. *)
Definition submit (kind : CommentType) (rawText : string) (now : Z)
  : list event :=
  [ChangeType kind; ChangeText rawText; ClickSubmit now].

(** A page session: mount, then the events. *)
Definition session (evs : list event) : M state :=
  st <- mount ;; run evs st.

End Component.

(** *** The specification's vocabulary for the comment store *)

(** The Comment shape: kind is one of the two enumerated values, text is
    a string, createdAt is a number. *)
Definition is_Comment (x : value) : bool :=
  match x with
  | VObj props =>
      match Val.own props "type", Val.own props "text",
            Val.own props "createdAt" with
      | VStr k, VStr _, VNum _ =>
          String.eqb k "General Comment" || String.eqb k "Request to Edit Steps"
      | _, _, _ => false
      end
  | _ => false
  end.

(** The Comment List the specification gives for a stored value. *)
Definition loaded_list {J : JSON} (stored : option string) : list value :=
  match stored with
  | None => []
  | Some raw =>
      match JSON_parse raw with
      | Some (VArr items) => take 200 (List.filter is_Comment items)
      | _ => []
      end
  end.

(** The text of a list element, when it has one. *)
Definition text_of (c : value) : option string :=
  match c with
  | VObj props =>
      match Val.own props "text" with
      | VStr s => Some s
      | _ => None
      end
  | _ => None
  end.

Definition has_nonempty_text (c : value) : Prop :=
  exists s, text_of c = Some s /\ s <> "".

Definition has_text (c : value) : Prop :=
  exists s, text_of c = Some s.

(** The list a computation leaves in the component when nothing
    escapes it. *)
Definition comments_after (c : M state) (w : world) : option (list value) :=
  match c w with
  | (Ok st, _) => Some (comments st)
  | (Throw _, _) => None
  end.

(** The most recent [setItem] call of [w] was for the serialized list
    [cs] at the fixed key; when it succeeded the slot holds that text. *)
Definition in_sync {J : JSON} (cs : list value) (w : world) : Prop :=
  exists ok older,
    attempts w = (STORAGE_KEY, JSON_stringify (VArr cs), ok) :: older
    /\ (ok = true ->
        localStorage w !! STORAGE_KEY = Some (JSON_stringify (VArr cs))).

(** Running [c] from [w] triggers at least one [setItem] call, the last
    of them for the serialized list [c] leaves in the component. *)
Definition triggers_write {J : JSON} (c : M state) (w : world) : Prop :=
  exists st w' ok between,
    c w = (Ok st, w')
    /\ attempts w' =
       (STORAGE_KEY, JSON_stringify (VArr (comments st)), ok)
         :: between ++ attempts w
    /\ (ok = true ->
        localStorage w' !! STORAGE_KEY
        = Some (JSON_stringify (VArr (comments st)))).

(** ** The guide component: checklist, progress and office search *)

(** [checked[k]] read as a condition: a key that was never set reads
    [undefined]. The keys are the ids of the checklist items, none of
    which an object inherits. *)
Definition is_checked (prev : gmap string bool) (k : string) : bool :=
  default false (prev !! k).

(** [toggleCheck]: the next map is [{ ...prev, [item]: !prev[item] }]. *)
Definition toggleCheck (item : string) (prev : gmap string bool)
  : gmap string bool :=
  <[item := negb (is_checked prev item)]> prev.

Definition progressTotal : nat := 5.

Definition progress_keys : list string :=
  ["nossn"; "passport"; "visa"; "i94"; "address"].

Definition progressDone (prev : gmap string bool) : nat :=
  length (List.filter (is_checked prev) progress_keys).

Definition permitDmvs : list DmvOffice :=
  [
    {| name := "AFTON (003)";
       address := "9513 Gravois Rd, Afton";
       phone := "(314) 631-1311" |};
    {| name := "ARNOLD (133)";
       address := "108 Richardson Crossing, Arnold";
       phone := "(636) 461-0846" |};
    {| name := "BRIDGETON (160)";
       address := "11977 St Charles Rock Rd Suite 111, Bridgeton";
       phone := "(314) 298-0127" |};
    {| name := "CENTRAL WEST END (052)";
       address := "4041 Lindell Blvd, St Louis";
       phone := "(314) 925-8330" |};
    {| name := "CHESTERFIELD (114)";
       address := "14838 Clayton Road, Chesterfield";
       phone := "(636) 386-5177" |};
    {| name := "CLAYTON (162)";
       address := "141 N Meramec Ave Ste 201, Clayton";
       phone := "(314) 499-7223" |};
    {| name := "CREVE COEUR (142)";
       address := "12933 Olive Blvd, St Louis";
       phone := "(314) 878-2110" |};
    {| name := "DES PERES (147)";
       address := "1080 Old Des Peres Road, Des Peres";
       phone := "(314) 909-1514" |};
    {| name := "FLORISSANT (035)";
       address := "650 N Hwy 67, Florissant";
       phone := "(314) 474-5045" |};
    {| name := "HARVESTER (148)";
       address := "4217-19 Old Hwy 94 South, Saint Charles";
       phone := "(636) 441-6074" |};
    {| name := "HIGH RIDGE (122)";
       address := "1684 Gravois Road, High Ridge";
       phone := "(636) 677-5339" |};
    {| name := "IMPERIAL (133)";
       address := "1238 Main St, Imperial";
       phone := "(636) 464-3330" |};
    {| name := "MAPLEWOOD (204)";
       address := "3238 Laclede Station Road, Maplewood";
       phone := "(314) 645-1044" |};
    {| name := "OAKVILLE (166)";
       address := "3164 Telegraph Road, St Louis";
       phone := "(314) 887-1050" |};
    {| name := "OFALLON (173)";
       address := "2421 Highway K, O Fallon";
       phone := "(636) 271-5300" |};
    {| name := "OLIVETTE (171)";
       address := "9652 Olive Blvd, St Louis";
       phone := "(314) 692-8222" |};
    {| name := "OVERLAND (118)";
       address := "10292 Page Avenue, St Louis";
       phone := "(314) 890-0880" |};
    {| name := "PACIFIC (017)";
       address := "730 Osage, Pacific";
       phone := "(636) 393-4011" |};
    {| name := "SAINT CHARLES (050)";
       address := "1982 Zumbehl Rd, St Charles";
       phone := "(636) 946-4456" |};
    {| name := "SOUTH COUNTY (154)";
       address := "111 Concord Plaza Shopping Center, St Louis";
       phone := "(314) 843-5223" |};
    {| name := "SOUTH KINGSHIGHWAY (200)";
       address := "4628 South Kingshighway, St Louis";
       phone := "(314) 752-3177" |};
    {| name := "WEST COUNTY (149)";
       address := "15533 Manchester Road, Ballwin";
       phone := "(636) 230-5041" |}
  ].

(** The state of [STLInternationalDLGuide]: its two [useState] cells. *)
Record guide := {
  checked : gmap string bool;
  dmvQuery : string
}.

Definition initial_guide : guide := {| checked := ∅; dmvQuery := "" |}.

(** The events of the guide: a click on a checklist item, a key pressed
    on it, and a change of the search box. *)
Inductive guide_event :=
| ClickItem (id : string)
| KeyDownItem (id key : string)
| ChangeQuery (q : string).

Definition guide_step (ev : guide_event) (g : guide) : guide :=
  match ev with
  | ClickItem id =>
      {| checked := toggleCheck id (checked g); dmvQuery := dmvQuery g |}
  | KeyDownItem id key =>
      if String.eqb key "Enter" || String.eqb key " "
      then {| checked := toggleCheck id (checked g); dmvQuery := dmvQuery g |}
      else g
  | ChangeQuery q => {| checked := checked g; dmvQuery := q |}
  end.

Definition guide_run (evs : list guide_event) (g : guide) : guide :=
  fold_left (fun g ev => guide_step ev g) evs g.

(** [useMemo(() => filterDmvs(permitDmvs, dmvQuery), ...)]. *)
Definition filteredDmvs (g : guide) : list DmvOffice :=
  filterDmvs permitDmvs (dmvQuery g).

(** The conditions of the five [console.assert] calls of the development
    block, for the office list they are run on. *)
Definition dev_assertions (offices : list DmvOffice) : list bool :=
  [ Nat.eqb (length (filterDmvs offices "")) (length offices);
    existsb (fun d => JS.includes (name d) "AFTON")
      (filterDmvs offices "AFTON");
    existsb (fun d => JS.includes (phone d) "631-1311")
      (filterDmvs offices "631-1311");
    existsb (fun d => JS.includes (name d) "AFTON")
      (filterDmvs offices "afton");
    existsb (fun d => JS.includes (JS.toLowerCase (address d)) "gravois")
      (filterDmvs offices "Gravois") ].

(** *** Vocabulary for the further properties *)

Fixpoint all_whitespace (s : string) : bool :=
  match s with
  | EmptyString => true
  | String c s' => JS.is_whitespace c && all_whitespace s'
  end.

(** The event toggles the checklist item [id]. *)
Definition toggles (id : string) (ev : guide_event) : bool :=
  match ev with
  | ClickItem i => String.eqb i id
  | KeyDownItem i key =>
      String.eqb i id && (String.eqb key "Enter" || String.eqb key " ")
  | ChangeQuery _ => false
  end.

Definition is_click (ev : event) : bool :=
  match ev with
  | ClickSubmit _ => true
  | _ => false
  end.

(** The comment a submission of [(kind, text, now)] creates. *)
Definition submitted (s : CommentType * string * Z) : value :=
  VObj [("type", VStr (type_string s.1.1));
        ("text", VStr (JS.trim s.1.2));
        ("createdAt", VNum s.2)].

Definition submit_all (subs : list (CommentType * string * Z)) : list event :=
  flat_map (fun s => submit s.1.1 s.1.2 s.2) subs.

(** ** A sample instance of the interface, for the worked examples *)

Module Sample.

Definition dquote : ascii := "034"%char.
Definition backslash : ascii := "092"%char.

Fixpoint escape (s : string) : string :=
  match s with
  | EmptyString => EmptyString
  | String c r =>
      if Ascii.eqb c dquote || Ascii.eqb c backslash
      then String backslash (String c (escape r))
      else String c (escape r)
  end.

Definition quoted (s : string) : string :=
  String dquote (escape s +:+ String dquote "").

(** A serializer in the manner of [JSON.stringify]. *)
Fixpoint print (v : value) : string :=
  match v with
  | VUndefined | VNull => "null"
  | VBool b => if b then "true" else "false"
  | VNum n => NilZero.string_of_int (Z.to_int n)
  | VStr s => quoted s
  | VArr items => "[" +:+ String.concat "," (List.map print items) +:+ "]"
  | VObj props =>
      "{" +:+ String.concat ","
                (List.map (fun kv => match kv with
                                     | (k, x) => quoted k +:+ ":" +:+ print x
                                     end) props)
          +:+ "}"
  end.

(** A parser that knows the texts of the values [known], and rejects
    every other text. *)
Definition parse_known (known : list value) (raw : string) : option value :=
  if JS.not_string raw then None
  else List.find (fun v => String.eqb (print v) raw) known.

Definition json (known : list value) : JSON :=
  {| JSON_parse := parse_known known;
     JSON_stringify := print;
     JSON_parse_empty := eq_refl |}.

Definition comment (kind text : string) (createdAt : Z) : value :=
  VObj [("type", VStr kind); ("text", VStr text);
        ("createdAt", VNum createdAt)].

(** [n] valid comments, created at times [0], [1], ... *)
Definition valid_comments (n : nat) : list value :=
  List.map (fun i => comment "General Comment" "note" (Z.of_nat i)) (seq 0 n).

(** A stored list of one comment whose text is the empty string. *)
Definition blank_stored : value := VArr [comment "General Comment" "" 1].

(** An object without [text]. *)
Definition textless : value :=
  VObj [("type", VStr "General Comment"); ("createdAt", VNum 7)].

(** A world whose slot holds the text of [v]; every write succeeds. *)
Definition storing (v : value) : world :=
  {| localStorage := {[ STORAGE_KEY := print v ]};
     write_outcomes := [];
     attempts := [] |}.

(** A world with nothing stored. *)
Definition fresh (outcomes : list bool) : world :=
  {| localStorage := ∅; write_outcomes := outcomes; attempts := [] |}.

Definition afton : DmvOffice :=
  {| name := "AFTON (003)";
     address := "9513 Gravois Rd, Afton";
     phone := "(314) 631-1311" |}.

Definition clayton : DmvOffice :=
  {| name := "CLAYTON (162)";
     address := "141 N Meramec Ave Ste 201, Clayton";
     phone := "(314) 499-7223" |}.

End Sample.

(** ** The locator filter over any alphabet of code units

    A JavaScript string is a sequence of 16-bit code units, and
    [String.prototype.toLowerCase] maps whole strings: on text beyond
    Latin-1 it depends on the context of a letter (the final sigma) and
    can change the length. The filter is therefore also given over an
    alphabet that supplies its code units, its whitespace and its
    lowercase mapping of strings; [trim] and [includes] are written out
    for every alphabet. [filterDmvs] above is this filter at the
    alphabet of the code units below 256. *)

Class Alphabet := {
  code_unit : Type;
  code_unit_eq_dec :: EqDecision code_unit;
  SPACE : code_unit;
  whitespace : code_unit -> bool;
  toLowerCase : list code_unit -> list code_unit
}.

Module Units.

Section OverAlphabet.

Context {A : Alphabet}.

Fixpoint trimStart (s : list code_unit) : list code_unit :=
  match s with
  | [] => []
  | c :: s' => if whitespace c then trimStart s' else s
  end.

Fixpoint trimEnd (s : list code_unit) : list code_unit :=
  match s with
  | [] => []
  | c :: s' =>
      match trimEnd s' with
      | [] => if whitespace c then [] else [c]
      | r => c :: r
      end
  end.

Definition trim (s : list code_unit) : list code_unit :=
  trimEnd (trimStart s).

Fixpoint startsWith (s search : list code_unit) : bool :=
  match search, s with
  | [], _ => true
  | _ :: _, [] => false
  | a :: search', b :: s' => bool_decide (a = b) && startsWith s' search'
  end.

(** [s.includes(search)]. *)
Fixpoint includes (s search : list code_unit) : bool :=
  if startsWith s search then true
  else match s with
       | [] => false
       | _ :: s' => includes s' search
       end.

Record Office := {
  name : list code_unit;
  address : list code_unit;
  phone : list code_unit
}.

(** The template literal [`${d.name} ${d.address} ${d.phone}`]. *)
Definition office_text (d : Office) : list code_unit :=
  name d ++ [SPACE] ++ address d ++ [SPACE] ++ phone d.

Definition filterDmvs (permitDmvs : list Office) (query : list code_unit)
  : list Office :=
  let q := toLowerCase (trim query) in
  match q with
  | [] => permitDmvs
  | _ :: _ =>
      List.filter (fun d => includes (toLowerCase (office_text d)) q) permitDmvs
  end.

(** *** The specification's vocabulary, over an alphabet *)

(** [t] occurs in [s] as a contiguous run of code units. *)
Definition run_of (t s : list code_unit) : Prop :=
  exists pre post, s = pre ++ t ++ post.

(** Two strings are case variants when [toLowerCase] maps them to the
    same string. *)
Definition case_variant (a b : list code_unit) : Prop :=
  toLowerCase a = toLowerCase b.

(** Some run of [s] is a case variant of [t]. *)
Definition contains_ci (s t : list code_unit) : Prop :=
  exists mid, run_of mid s /\ case_variant mid t.

(** [toLowerCase] acts code unit by code unit. *)
Definition unitwise : Prop :=
  exists f : code_unit -> code_unit,
    (forall u, f (f u) = f u) /\ forall s, toLowerCase s = List.map f s.

End OverAlphabet.

End Units.

(** The code units below 256: [toLowerCase] maps them one by one. *)
Definition Latin1 : Alphabet :=
  {| code_unit := ascii;
     SPACE := " "%char;
     whitespace := JS.is_whitespace;
     toLowerCase := List.map JS.lower_unit |}.

(** A string and an office of the 8-bit model as code units. *)
Definition units_of (s : string) : list (@code_unit Latin1) :=
  String.list_ascii_of_string s.

Definition office_units (d : DmvOffice) : @Units.Office Latin1 :=
  @Units.Build_Office Latin1
    (units_of (name d)) (units_of (address d)) (units_of (phone d)).

(** UTF-16 code units, with [toLowerCase] on text made of Basic Latin,
    Latin-1, the Greek capital letters U+0391 to U+03A9 and the Greek
    small letters U+03B1 to U+03C9: the capital letters of these ranges
    go to their small letters, and capital sigma goes to
    the final small sigma U+03C2 when a cased letter comes before it and
    none after it (case-ignorable characters skipped), and to the small
    sigma U+03C3 otherwise. Code units of other ranges are left as they
    are, and are outside what this alphabet models. *)
Module Utf16.

Definition between (lo hi u : N) : bool := ((lo <=? u) && (u <=? hi))%N.

(** WhiteSpace and LineTerminator of ECMAScript. *)
Definition WhiteSpace (u : N) : bool :=
  between 9 13 u || (u =? 32)%N || (u =? 160)%N || (u =? 5760)%N
  || between 8192 8202 u || (u =? 8232)%N || (u =? 8233)%N
  || (u =? 8239)%N || (u =? 8287)%N || (u =? 12288)%N || (u =? 65279)%N.

Definition cased (u : N) : bool :=
  between 65 90 u || between 97 122 u
  || (u =? 170)%N || (u =? 181)%N || (u =? 186)%N
  || between 192 214 u || between 216 246 u || between 248 255 u
  || between 913 929 u || between 931 937 u || between 945 969 u.

Definition case_ignorable (u : N) : bool :=
  (u =? 39)%N || (u =? 46)%N || (u =? 58)%N || (u =? 94)%N || (u =? 96)%N
  || (u =? 168)%N || (u =? 173)%N || (u =? 175)%N || (u =? 180)%N
  || (u =? 183)%N || (u =? 184)%N.

Definition CAPITAL_SIGMA : N := 931.
Definition FINAL_SIGMA : N := 962.
Definition SMALL_SIGMA : N := 963.

Definition lower_unit (u : N) : N :=
  if between 65 90 u || between 192 214 u || between 216 222 u
     || between 913 929 u || between 931 937 u
  then (u + 32)%N
  else u.

Fixpoint cased_follows (rest : list N) : bool :=
  match rest with
  | [] => false
  | u :: rest' => if case_ignorable u then cased_follows rest' else cased u
  end.

Fixpoint lower_from (after_cased : bool) (s : list N) : list N :=
  match s with
  | [] => []
  | u :: rest =>
      (if (u =? CAPITAL_SIGMA)%N
       then if after_cased && negb (cased_follows rest)
            then FINAL_SIGMA
            else SMALL_SIGMA
       else lower_unit u)
      :: lower_from (if case_ignorable u then after_cased else cased u) rest
  end.

Definition toLowerCase (s : list N) : list N := lower_from false s.

Definition alphabet : Alphabet :=
  Build_Alphabet N _ 32%N WhiteSpace toLowerCase.

(** The code units of a Latin-1 string. *)
Definition of_string (s : string) : list (@code_unit alphabet) :=
  List.map N_of_ascii (String.list_ascii_of_string s).

(** The word for street, in capitals: omicron, delta, omicron, sigma. *)
Definition ODOS : list (@code_unit alphabet) := [927; 916; 927; 931]%N.

Definition odos_office : @Units.Office alphabet :=
  @Units.Build_Office alphabet
    ODOS (of_string "Ermou 1, Athens") (of_string "210 555 0100").

End Utf16.

(** ** Facts about the string built-ins *)

Section StringFacts.

Lemma app_cons c (s t : string) : String c s +:+ t = String c (s +:+ t).
Proof. reflexivity. Qed.

Lemma app_empty_l (s : string) : "" +:+ s = s.
Proof. reflexivity. Qed.

Lemma app_empty_r (s : string) : s +:+ "" = s.
Proof. induction s as [|c s IH]; [done|]. by rewrite app_cons, IH. Qed.

Lemma app_assoc_str (a b c : string) : (a +:+ b) +:+ c = a +:+ b +:+ c.
Proof. induction a as [|x a IH]; [done|]. by rewrite !app_cons, IH. Qed.

Lemma lower_unit_idem c : JS.lower_unit (JS.lower_unit c) = JS.lower_unit c.
Proof. destruct c as [[] [] [] [] [] [] [] []]; reflexivity. Qed.

Lemma lower_unit_whitespace c :
  JS.is_whitespace (JS.lower_unit c) = JS.is_whitespace c.
Proof. destruct c as [[] [] [] [] [] [] [] []]; reflexivity. Qed.

Lemma toLowerCase_app (a b : string) :
  JS.toLowerCase (a +:+ b) = JS.toLowerCase a +:+ JS.toLowerCase b.
Proof.
  induction a as [|x a IH]; [done|].
  rewrite app_cons. simpl. by rewrite IH.
Qed.

Lemma toLowerCase_idem s : JS.toLowerCase (JS.toLowerCase s) = JS.toLowerCase s.
Proof.
  induction s as [|c s IH]; [done|].
  simpl. by rewrite lower_unit_idem, IH.
Qed.

Lemma toLowerCase_empty s : JS.toLowerCase s = "" <-> s = "".
Proof. destruct s; simpl; split; congruence. Qed.

Lemma trimStart_split s : exists ws, s = ws +:+ JS.trimStart s.
Proof.
  induction s as [|c s [ws IH]]; [by exists ""|].
  simpl. destruct (JS.is_whitespace c).
  - exists (String c ws). by rewrite app_cons, <- IH.
  - by exists "".
Qed.

Lemma trimEnd_split s : exists ws, s = JS.trimEnd s +:+ ws.
Proof.
  induction s as [|c s [ws IH]]; [by exists ""|].
  simpl. destruct (JS.trimEnd s) as [|d r] eqn:E.
  - destruct (JS.is_whitespace c).
    + exists (String c s). done.
    + exists ws. rewrite app_cons. rewrite app_empty_l in *. by rewrite <- IH.
  - exists ws. rewrite app_cons. by rewrite <- IH.
Qed.

(** What [trim] keeps is a run of the string it was given. *)
Lemma trim_substring s : substring_of (JS.trim s) s.
Proof.
  destruct (trimStart_split s) as [l Hl].
  destruct (trimEnd_split (JS.trimStart s)) as [r Hr].
  exists l, r. unfold JS.trim. by rewrite <- Hr.
Qed.

Lemma prefix_spec (t s : string) :
  String.prefix t s = true <-> exists post, s = t +:+ post.
Proof.
  revert s. induction t as [|c t IH]; intros s.
  - split; [intros _; by exists s | by destruct s].
  - destruct s as [|d s]; simpl.
    + split; [discriminate | intros [post H]; discriminate].
    + destruct (ascii_dec c d) as [->|Hne].
      * rewrite IH. split; intros [post H]; exists post.
        -- by rewrite app_cons, H.
        -- rewrite app_cons in H. by injection H.
      * split; [discriminate|]. intros [post H].
        rewrite app_cons in H. injection H as -> _. done.
Qed.

Lemma includes_unfold (s t : string) :
  JS.includes s t =
  if String.prefix t s then true
  else match s with
       | EmptyString => false
       | String _ s' => JS.includes s' t
       end.
Proof. by destruct s. Qed.

Lemma includes_spec (s t : string) :
  JS.includes s t = true <-> substring_of t s.
Proof.
  unfold substring_of. induction s as [|c s IH];
    rewrite includes_unfold;
    match goal with |- context [String.prefix t ?h] =>
      destruct (String.prefix t h) eqn:P end.
  - apply prefix_spec in P as [post P]. split; [|done].
    intros _. by exists "", post.
  - split; [discriminate|]. intros (pre & post & H).
    destruct pre; [|discriminate]. rewrite app_empty_l in H.
    assert (String.prefix t "" = true) by (apply prefix_spec; eauto).
    congruence.
  - apply prefix_spec in P as [post P]. split; [|done].
    intros _. by exists "", post.
  - rewrite IH. split.
    + intros (pre & post & ->). exists (String c pre), post.
      by rewrite app_cons.
    + intros (pre & post & H). destruct pre as [|d pre].
      * rewrite app_empty_l in H.
        assert (String.prefix t (String c s) = true)
          by (apply prefix_spec; eauto).
        congruence.
      * rewrite app_cons in H. injection H as _ ->. eauto.
Qed.

Lemma substring_of_trans (a b c : string) :
  substring_of a b -> substring_of b c -> substring_of a c.
Proof.
  intros (p1 & q1 & ->) (p2 & q2 & ->).
  exists (p2 +:+ p1), (q1 +:+ q2). by rewrite !app_assoc_str.
Qed.

Lemma substring_of_lower (a b : string) :
  substring_of a b -> substring_of (JS.toLowerCase a) (JS.toLowerCase b).
Proof.
  intros (p & q & ->). exists (JS.toLowerCase p), (JS.toLowerCase q).
  by rewrite !toLowerCase_app.
Qed.

Lemma not_string_true s : JS.not_string s = true <-> s = "".
Proof. destruct s; simpl; split; congruence. Qed.

Lemma not_string_lower s :
  JS.not_string (JS.toLowerCase s) = JS.not_string s.
Proof. by destruct s. Qed.

End StringFacts.

(** ** The locator filter *)

Section FilterFacts.

Import Sample.

Lemma field_in_office_text (d : DmvOffice) (f : string) :
  f = name d \/ f = address d \/ f = phone d ->
  substring_of f (office_text d).
Proof.
  unfold office_text. intros [-> | [-> | ->]].
  - by exists "", (" " +:+ address d +:+ " " +:+ phone d).
  - exists (name d +:+ " "), (" " +:+ phone d).
    by rewrite !app_assoc_str.
  - exists (name d +:+ " " +:+ address d +:+ " "), "".
    by rewrite app_empty_r, !app_assoc_str.
Qed.

(** C6: a query that trims to the empty string (the empty query and
    the whitespace-only queries) gives back the office list itself,
    whole and in its order. *)
Theorem filterDmvs_blank_query (offices : list DmvOffice) (query : string) :
  JS.trim query = "" -> filterDmvs offices query = offices.
Proof.
  intros Hq. unfold filterDmvs. by rewrite Hq.
Qed.

Lemma filterDmvs_blank_query_witness :
  JS.trim "   " = ""
  /\ filterDmvs [afton; clayton] "   " = [afton; clayton].
Proof.
  split; [reflexivity | apply filterDmvs_blank_query; reflexivity].
Defined.

(** The scenario of the specification. *)
Example filterDmvs_gravois :
  filterDmvs [afton; clayton] "gravois" = [afton].
Proof. reflexivity. Qed.

Example filterDmvs_314 :
  filterDmvs [afton; clayton] "314" = [afton; clayton].
Proof. reflexivity. Qed.

(** The assertions at the end of the source file. *)
Example filterDmvs_by_phone :
  filterDmvs [afton; clayton] "631-1311" = [afton].
Proof. reflexivity. Qed.

Example filterDmvs_case_insensitive :
  filterDmvs [afton; clayton] "afton" = filterDmvs [afton; clayton] "AFTON".
Proof. reflexivity. Qed.

End FilterFacts.

(** ** The comment store *)

Section ComponentFacts.

Context {J : JSON}.

Ltac unfold_M :=
  unfold parse in *;
  unfold bind, ret, throw, lift, try_catch, getItem in *.

(** *** Loading *)

(** The callback of the load effect never throws, and it tests the
    Comment shape. *)
Lemma shape_check_spec x : shape_check x = Ok (is_Comment x).
Proof.
  destruct x as [| | [] | n | s | items | props]; try reflexivity.
  - unfold shape_check; simpl. by destruct (n =? 0)%Z.
  - unfold shape_check; simpl. by destruct s.
  - unfold shape_check, test_prop, is_Comment; simpl.
    destruct (Val.own props "type") as [| | ? | ? | k | ? | ?]; try reflexivity.
    simpl.
    destruct (String.eqb k "General Comment"),
             (String.eqb k "Request to Edit Steps"); simpl;
      destruct (Val.own props "text"); try reflexivity;
      destruct (Val.own props "createdAt"); reflexivity.
Qed.

Lemma array_filter_spec xs :
  array_filter shape_check xs = Ok (List.filter is_Comment xs).
Proof.
  induction xs as [|x xs IH]; [done|].
  simpl. rewrite shape_check_spec, IH. by destruct (is_Comment x).
Qed.

Lemma load_effect_spec w :
  load_effect w =
  (Ok match localStorage w !! STORAGE_KEY with
      | Some raw =>
          match JSON_parse raw with
          | Some (VArr items) =>
              Some (take 200 (List.filter is_Comment items))
          | _ => None
          end
      | None => None
      end, w).
Proof.
  unfold load_effect. unfold_M.
  destruct (localStorage w !! STORAGE_KEY) as [raw|]; [|done].
  destruct raw as [|c raw]; cbn [JS.not_string].
  { by rewrite JSON_parse_empty. }
  destruct (JSON_parse (String c raw)) as [[| | | | | items |]|];
    cbv beta iota; try reflexivity.
  by rewrite array_filter_spec.
Qed.

Lemma load_effect_loaded_list w :
  forall update, (load_effect w).1 = Ok update ->
  loaded_list (localStorage w !! STORAGE_KEY) = default [] update.
Proof.
  intros update. rewrite load_effect_spec. simpl. intros [= <-].
  unfold loaded_list.
  destruct (localStorage w !! STORAGE_KEY) as [raw|]; [|done].
  by destruct (JSON_parse raw) as [[| | | | | items |]|].
Qed.

Lemma loaded_list_length stored : length (loaded_list stored) <= 200.
Proof.
  unfold loaded_list. destruct stored as [raw|]; simpl; [|lia].
  destruct (JSON_parse raw) as [[| | | | | items |]|]; simpl; try lia.
  rewrite length_take. lia.
Qed.

Lemma loaded_list_shape stored :
  Forall (fun c => is_Comment c = true) (loaded_list stored).
Proof.
  unfold loaded_list. destruct stored as [raw|]; [|by constructor].
  destruct (JSON_parse raw) as [[| | | | | items |]|]; try by constructor.
  apply Forall_take, List.Forall_forall.
  by intros c [_ ?]%filter_In.
Qed.

Lemma filter_all_valid (xs : list value) :
  forallb is_Comment xs = true -> List.filter is_Comment xs = xs.
Proof.
  induction xs as [|x xs IH]; [done|]. simpl.
  intros [Hx Hxs]%andb_true_iff. by rewrite Hx, IH.
Qed.

(** *** Saving *)

(** The save effect makes one [setItem] call for the serialized list
    and lets nothing escape, whatever the outcome of the call. *)
Lemma save_effect_spec cs w :
  exists ok : bool,
    save_effect cs w =
    (Ok tt,
     {| localStorage :=
          if ok then <[STORAGE_KEY := JSON_stringify (VArr cs)]> (localStorage w)
          else localStorage w;
        write_outcomes := tail (write_outcomes w);
        attempts :=
          (STORAGE_KEY, JSON_stringify (VArr cs), ok) :: attempts w |}).
Proof.
  unfold save_effect, setItem. unfold_M.
  destruct (write_outcomes w) as [|[|] rest];
    [by exists true | by exists true | by exists false].
Qed.

Lemma save_effect_writes cs w :
  exists w' ok,
    save_effect cs w = (Ok tt, w')
    /\ attempts w' = (STORAGE_KEY, JSON_stringify (VArr cs), ok) :: attempts w
    /\ (ok = true ->
        localStorage w' !! STORAGE_KEY = Some (JSON_stringify (VArr cs))).
Proof.
  destruct (save_effect_spec cs w) as [ok ->].
  eexists _, ok. split; [done|]. split; [done|].
  intros ->. simpl. apply lookup_insert_eq.
Qed.

(** *** Mounting *)

Lemma mount_spec w :
  exists w' ok between,
    mount w =
    (Ok {| type := GeneralComment; text := "";
           comments := loaded_list (localStorage w !! STORAGE_KEY) |}, w')
    /\ attempts w' =
       (STORAGE_KEY,
        JSON_stringify (VArr (loaded_list (localStorage w !! STORAGE_KEY))),
        ok) :: between ++ attempts w
    /\ (ok = true ->
        localStorage w' !! STORAGE_KEY =
        Some (JSON_stringify
                (VArr (loaded_list (localStorage w !! STORAGE_KEY))))).
Proof.
  pose proof (load_effect_loaded_list w) as Hl.
  unfold mount, bind at 1. destruct (load_effect w) as [[update|e] w0] eqn:E.
  2: { rewrite load_effect_spec in E. discriminate. }
  assert (w0 = w) as -> by (rewrite load_effect_spec in E; congruence).
  rewrite (Hl update eq_refl). clear Hl E.
  unfold bind at 1.
  destruct (save_effect_writes (comments initial_state) w)
    as (w1 & ok1 & -> & Ha1 & Hs1).
  destruct update as [safe|]; simpl.
  - unfold bind.
    destruct (save_effect_writes safe w1) as (w2 & ok2 & -> & Ha2 & Hs2).
    exists w2, ok2, [(STORAGE_KEY, JSON_stringify (VArr []), ok1)].
    split; [done|]. split; [|done]. by rewrite Ha2, Ha1.
  - exists w1, ok1, []. by split.
Qed.

Lemma mount_comments w :
  comments_after mount w = Some (loaded_list (localStorage w !! STORAGE_KEY)).
Proof.
  unfold comments_after.
  by destruct (mount_spec w) as (w' & ok & between & -> & _).
Qed.

(** C2: mounting leaves the list the specification gives for the
    stored value: empty when the value is absent, does not parse or is
    no array; otherwise the elements of the Comment shape, in their
    order, cut to the first 200. So 250 valid comments load as their
    first 200, and a valid comment stored with an object that has no
    [text] loads alone. *)
Theorem mount_loads_validated_list :
  (forall w,
      comments_after mount w
      = Some (loaded_list (localStorage w !! STORAGE_KEY)))
  /\ (forall w,
         localStorage w !! STORAGE_KEY = None ->
         comments_after mount w = Some [])
  /\ (forall w raw,
         localStorage w !! STORAGE_KEY = Some raw ->
         JSON_parse raw = None ->
         comments_after mount w = Some [])
  /\ (forall w raw v,
         localStorage w !! STORAGE_KEY = Some raw ->
         JSON_parse raw = Some v ->
         (forall items, v <> VArr items) ->
         comments_after mount w = Some [])
  /\ (forall w raw items,
         localStorage w !! STORAGE_KEY = Some raw ->
         JSON_parse raw = Some (VArr items) ->
         comments_after mount w
         = Some (take 200 (List.filter is_Comment items)))
  /\ (forall w raw xs,
         localStorage w !! STORAGE_KEY = Some raw ->
         JSON_parse raw = Some (VArr xs) ->
         length xs = 250 ->
         forallb is_Comment xs = true ->
         comments_after mount w = Some (take 200 xs)
         /\ length (take 200 xs) = 200)
  /\ (forall w raw c o props,
         localStorage w !! STORAGE_KEY = Some raw ->
         JSON_parse raw = Some (VArr [c; o])
         \/ JSON_parse raw = Some (VArr [o; c]) ->
         is_Comment c = true ->
         o = VObj props ->
         Val.own props "text" = VUndefined ->
         comments_after mount w = Some [c]).
Proof.
  split; [apply mount_comments|].
  split; [|split; [|split; [|split; [|split]]]].
  - intros w Hraw. by rewrite mount_comments, Hraw.
  - intros w raw Hraw Hparse. rewrite mount_comments, Hraw.
    unfold loaded_list. by rewrite Hparse.
  - intros w raw v Hraw Hparse Hv. rewrite mount_comments, Hraw.
    unfold loaded_list. rewrite Hparse.
    destruct v as [| | | | | items |]; try done. by destruct (Hv items).
  - intros w raw items Hraw Hparse. rewrite mount_comments, Hraw.
    unfold loaded_list. by rewrite Hparse.
  - intros w raw xs Hraw Hparse Hlen Hvalid.
    rewrite mount_comments, Hraw. unfold loaded_list.
    rewrite Hparse, (filter_all_valid _ Hvalid).
    split; [done|]. rewrite length_take. lia.
  - intros w raw c o props Hraw Hparse Hc -> Hno.
    rewrite mount_comments, Hraw. unfold loaded_list.
    assert (is_Comment (VObj props) = false) as Ho.
    { unfold is_Comment. rewrite Hno. by destruct (Val.own props "type"). }
    destruct Hparse as [-> | ->]; cbn [List.filter]; by rewrite Hc, Ho.
Qed.

(** *** Submitting *)

Lemma handleSubmit_rejected now st :
  JS.trim (text st) = "" -> handleSubmit now st = (st, false).
Proof. intros H. unfold handleSubmit. by rewrite H. Qed.

Lemma handleSubmit_accepted now st :
  JS.trim (text st) <> "" ->
  handleSubmit now st =
  ({| type := type st; text := "";
      comments := VObj [("type", VStr (type_string (type st)));
                        ("text", VStr (JS.trim (text st)));
                        ("createdAt", VNum now)] :: comments st |},
   true).
Proof.
  intros H. unfold handleSubmit.
  destruct (JS.not_string (JS.trim (text st))) eqn:E; [|done].
  by apply not_string_true in E.
Qed.

Lemma run_submit_rejected kind rawText now st w :
  JS.trim rawText = "" ->
  run (submit kind rawText now) st w =
  (Ok {| type := kind; text := rawText; comments := comments st |}, w).
Proof.
  intros H. unfold submit, run, step. unfold_M.
  by rewrite handleSubmit_rejected.
Qed.

Lemma run_submit_accepted kind rawText now st w :
  JS.trim rawText <> "" ->
  exists w' ok,
    let cs := VObj [("type", VStr (type_string kind));
                    ("text", VStr (JS.trim rawText));
                    ("createdAt", VNum now)] :: comments st in
    run (submit kind rawText now) st w =
    (Ok {| type := kind; text := ""; comments := cs |}, w')
    /\ attempts w' = (STORAGE_KEY, JSON_stringify (VArr cs), ok) :: attempts w
    /\ (ok = true ->
        localStorage w' !! STORAGE_KEY = Some (JSON_stringify (VArr cs))).
Proof.
  intros H. unfold submit, run, step. unfold bind at 1 2. unfold ret at 1 2.
  rewrite handleSubmit_accepted by done. cbn [type text comments].
  unfold bind.
  match goal with |- context [save_effect ?cs w] =>
    destruct (save_effect_writes cs w) as (w' & ok & -> & Ha & Hs) end.
  by exists w', ok.
Qed.

(** C4: a submission whose trimmed text is not empty puts exactly one
    new comment in front of the list, the comments that were there
    following it unchanged; its text is the trimmed text, its kind the
    given kind, its createdAt the time [Date.now()] returned, which is
    no earlier than a time read before the call. *)
Theorem submit_prepends_comment
    (kind : CommentType) (rawText : string) (now t_before : Z)
    (st : state) (w : world) :
  JS.trim rawText <> "" ->
  (t_before <= now)%Z ->
  exists c t,
    comments_after (run (submit kind rawText now) st) w
    = Some (c :: comments st)
    /\ Val.get c "text" = Ok (VStr (JS.trim rawText))
    /\ Val.get c "type" = Ok (VStr (type_string kind))
    /\ Val.get c "createdAt" = Ok (VNum t)
    /\ t = now
    /\ (t_before <= t)%Z.
Proof.
  intros Htrim Htime.
  destruct (run_submit_accepted kind rawText now st w Htrim)
    as (w' & ok & Hrun & _).
  eexists _, now. unfold comments_after. rewrite Hrun.
  cbn [comments]. repeat split; done.
Qed.

(** C5: a submission whose text trims to the empty string changes
    nothing: the list is the same, the world is the same (no [setItem]
    call was made), and nothing is thrown. *)
Theorem submit_blank_is_noop
    (kind : CommentType) (rawText : string) (now : Z)
    (st : state) (w : world) :
  JS.trim rawText = "" ->
  exists st',
    run (submit kind rawText now) st w = (Ok st', w)
    /\ comments st' = comments st.
Proof.
  intros Htrim. eexists. by rewrite run_submit_rejected.
Qed.

(** *** Sessions *)

Lemma new_comment_shape kind trimmed now :
  is_Comment (VObj [("type", VStr (type_string kind));
                    ("text", VStr trimmed);
                    ("createdAt", VNum now)]) = true.
Proof. by destruct kind. Qed.

Lemma is_Comment_has_text c : is_Comment c = true -> has_text c.
Proof.
  unfold has_text, text_of. destruct c as [| | | | | |props]; try done.
  unfold is_Comment. destruct (Val.own props "type"); try done.
  destruct (Val.own props "text"); try done. eauto.
Qed.

(** One event either leaves list and world alone or puts one comment
    with a non-empty text in front and calls [setItem] once. *)
Lemma step_cases ev st w :
  (exists st', step ev st w = (Ok st', w) /\ comments st' = comments st)
  \/ (exists st' w' ok c,
         step ev st w = (Ok st', w')
         /\ comments st' = c :: comments st
         /\ is_Comment c = true
         /\ has_nonempty_text c
         /\ attempts w' =
            (STORAGE_KEY, JSON_stringify (VArr (comments st')), ok)
              :: attempts w
         /\ (ok = true ->
             localStorage w' !! STORAGE_KEY
             = Some (JSON_stringify (VArr (comments st'))))).
Proof.
  destruct ev as [t | s | now]; cbn [step]; [left; by eexists..|].
  destruct (JS.trim (text st)) as [|a r] eqn:Htrim.
  - left. rewrite handleSubmit_rejected by done. by eexists.
  - right. rewrite handleSubmit_accepted by congruence.
    rewrite Htrim. unfold bind.
    match goal with |- context [save_effect ?cs w] =>
      destruct (save_effect_writes cs w) as (w' & ok & -> & Ha & Hs) end.
    eexists _, w', ok, _. split; [done|]. cbn [comments].
    split; [done|]. split; [apply new_comment_shape|].
    split; [|done]. by exists (String a r).
Qed.

Lemma run_cons ev evs st w :
  run (ev :: evs) st w =
  match step ev st w with
  | (Ok st', w') => run evs st' w'
  | (Throw e, w') => (Throw e, w')
  end.
Proof. reflexivity. Qed.

Lemma run_invariant evs : forall st w,
  exists st' w' added,
    run evs st w = (Ok st', w')
    /\ comments st' = added ++ comments st
    /\ Forall has_nonempty_text added
    /\ Forall (fun c => is_Comment c = true) added
    /\ (in_sync (comments st) w -> in_sync (comments st') w').
Proof.
  induction evs as [|ev evs IH]; intros st w.
  { exists st, w, []. by repeat split. }
  rewrite run_cons.
  destruct (step_cases ev st w)
    as [(st1 & -> & Hcs) | (st1 & w1 & ok & c & -> & Hcs & Hc & Ht & Ha & Hs)].
  - destruct (IH st1 w) as (st' & w' & added & -> & Hl & Hne & Hsh & Hsync).
    exists st', w', added. rewrite Hcs in *. by repeat split.
  - destruct (IH st1 w1) as (st' & w' & added & -> & Hl & Hne & Hsh & Hsync).
    exists st', w', (added ++ [c]).
    split; [done|]. split; [by rewrite Hl, Hcs, <- app_assoc|].
    split; [apply Forall_app; by split; [|constructor]|].
    split; [apply Forall_app; by split; [|constructor]|].
    intros _. apply Hsync. by exists ok, (attempts w).
Qed.

Lemma step_result_any_world ev st w1 w2 :
  exists st', (step ev st w1).1 = Ok st' /\ (step ev st w2).1 = Ok st'.
Proof.
  destruct ev as [t | s | now]; cbn [step]; [by eexists..|].
  destruct (handleSubmit now st) as [st' [|]]; [|by eexists].
  unfold bind.
  destruct (save_effect_spec (comments st') w1) as [ok1 ->].
  destruct (save_effect_spec (comments st') w2) as [ok2 ->].
  by exists st'.
Qed.

Lemma run_result_any_world evs : forall st w1 w2,
  exists st', (run evs st w1).1 = Ok st' /\ (run evs st w2).1 = Ok st'.
Proof.
  induction evs as [|ev evs IH]; intros st w1 w2; [by exists st|].
  rewrite !run_cons.
  destruct (step_result_any_world ev st w1 w2) as (st1 & H1 & H2).
  destruct (step ev st w1) as [r1 w1'], (step ev st w2) as [r2 w2'].
  simpl in H1, H2. subst r1 r2. apply IH.
Qed.

(** C9: a failing write changes nothing but the slot. With the same
    stored value and the same events, a session in which [setItem]
    fails as [outcomes] says ends, with nothing thrown, in the state of
    the session in which every [setItem] succeeds. *)
Theorem write_failures_are_swallowed
    (evs : list event) (store : gmap string string)
    (outcomes : list bool) (log : list (string * string * bool)) :
  exists st,
    (session evs {| localStorage := store; write_outcomes := outcomes;
                    attempts := log |}).1 = Ok st
    /\ (session evs {| localStorage := store; write_outcomes := [];
                       attempts := log |}).1 = Ok st.
Proof.
  unfold session, bind.
  destruct (mount_spec {| localStorage := store; write_outcomes := outcomes;
                          attempts := log |}) as (w1 & ? & ? & -> & _).
  destruct (mount_spec {| localStorage := store; write_outcomes := [];
                          attempts := log |}) as (w2 & ? & ? & -> & _).
  cbn [localStorage]. apply run_result_any_world.
Qed.

(** C8, as the code has it: after any session every element of the
    list has a string as its text; the elements the session added in
    front of the loaded ones have a non-empty text. *)
Theorem texts_of_comment_list (evs : list event) (w : world) :
  exists st w' added,
    session evs w = (Ok st, w')
    /\ comments st = added ++ loaded_list (localStorage w !! STORAGE_KEY)
    /\ Forall has_nonempty_text added
    /\ Forall has_text (comments st).
Proof.
  unfold session, bind.
  destruct (mount_spec w) as (w0 & ? & ? & -> & _).
  match goal with |- context [run evs ?st0 w0] =>
    destruct (run_invariant evs st0 w0)
      as (st & w' & added & -> & Hl & Hne & Hsh & _) end.
  cbn [comments] in Hl. exists st, w', added.
  split; [done|]. split; [done|]. split; [done|].
  rewrite Hl. apply Forall_app. split.
  - eapply Forall_impl; [exact Hsh|]. apply is_Comment_has_text.
  - eapply Forall_impl; [apply loaded_list_shape|]. apply is_Comment_has_text.
Qed.

(** C10, as the code has it: mounting, and every submission whose
    trimmed text is not empty, trigger a write of the serialized list
    they leave; a submission whose text trims to the empty string
    triggers none. So at the end of any session the last write was for
    the serialized list, and the slot holds it when that write
    succeeded. Loading 250 valid comments rewrites the slot with the
    first 200. *)
Theorem writes_follow_list_changes :
  (forall w, triggers_write mount w)
  /\ (forall kind rawText now st w,
         JS.trim rawText <> "" ->
         triggers_write (run (submit kind rawText now) st) w)
  /\ (forall kind rawText now st w,
         JS.trim rawText = "" ->
         exists st', run (submit kind rawText now) st w = (Ok st', w))
  /\ (forall evs w,
         exists st w',
           session evs w = (Ok st, w') /\ in_sync (comments st) w')
  /\ (forall w raw xs,
         localStorage w !! STORAGE_KEY = Some raw ->
         JSON_parse raw = Some (VArr xs) ->
         length xs = 250 ->
         forallb is_Comment xs = true ->
         exists st w',
           mount w = (Ok st, w')
           /\ comments st = take 200 xs
           /\ in_sync (take 200 xs) w').
Proof.
  assert (forall w, triggers_write mount w) as Hmount.
  { intros w. destruct (mount_spec w) as (w' & ok & between & Hm & Ha & Hs).
    eexists _, w', ok, between. split; [exact Hm|]. by split. }
  split; [done|]. split; [|split; [|split]].
  - intros kind rawText now st w Htrim.
    destruct (run_submit_accepted kind rawText now st w Htrim)
      as (w' & ok & Hrun & Ha & Hs).
    eexists _, w', ok, []. split; [exact Hrun|]. by split.
  - intros kind rawText now st w Htrim. eexists.
    by rewrite run_submit_rejected.
  - intros evs w. unfold session, bind.
    destruct (Hmount w) as (st0 & w0 & ok & between & -> & Ha & Hs).
    destruct (run_invariant evs st0 w0)
      as (st & w' & added & -> & _ & _ & _ & Hsync).
    exists st, w'. split; [done|]. apply Hsync. by exists ok, (between ++ attempts w).
  - intros w raw xs Hraw Hparse Hlen Hvalid.
    destruct (mount_spec w) as (w' & ok & between & Hm & Ha & Hs).
    assert (loaded_list (localStorage w !! STORAGE_KEY) = take 200 xs) as Hl.
    { rewrite Hraw. unfold loaded_list.
      by rewrite Hparse, (filter_all_valid _ Hvalid). }
    rewrite Hl in *. eexists _, w'. split; [exact Hm|]. split; [done|].
    by exists ok, (between ++ attempts w).
Qed.

(** Mounting respects the cap of 200; one accepted submission adds one
    element, whatever the length was. *)
Lemma mount_length w :
  exists cs, comments_after mount w = Some cs /\ length cs <= 200.
Proof.
  eexists. split; [apply mount_comments | apply loaded_list_length].
Qed.

End ComponentFacts.

(** ** Worked examples on the sample instance *)

Section WorkedExamples.

Import Sample.

Lemma mount_loads_validated_list_witness :
  comments_after
    (mount (J := json [VArr (valid_comments 250)]))
    (storing (VArr (valid_comments 250)))
  = Some (take 200 (valid_comments 250))
  /\ length (take 200 (valid_comments 250)) = 200.
Proof.
  destruct (mount_loads_validated_list (J := json [VArr (valid_comments 250)]))
    as (_ & _ & _ & _ & _ & H250 & _).
  apply H250 with (raw := print (VArr (valid_comments 250)));
    vm_compute; reflexivity.
Defined.

(** The other load scenario of the specification. *)
Example mount_drops_textless :
  comments_after
    (mount (J := json [VArr [comment "Request to Edit Steps" "fix step 2" 5;
                             textless]]))
    (storing (VArr [comment "Request to Edit Steps" "fix step 2" 5; textless]))
  = Some [comment "Request to Edit Steps" "fix step 2" 5].
Proof. vm_compute. reflexivity. Qed.

Example mount_nothing_stored :
  comments_after (mount (J := json [])) (fresh []) = Some [].
Proof. vm_compute. reflexivity. Qed.

(** C3: the list can exceed 200 elements. 200 valid comments are
    stored; the session mounts and submits one comment; the list then
    has 201 elements. *)
Theorem submit_exceeds_cap :
  length <$>
    comments_after
      (session (J := json [VArr (valid_comments 200)])
         (submit GeneralComment "one more" 1000))
      (storing (VArr (valid_comments 200)))
  = Some 201.
Proof. vm_compute. reflexivity. Qed.

Lemma submit_prepends_comment_witness :
  JS.trim "  hello  " <> ""
  /\ (999 <= 1000)%Z
  /\ exists c t,
       comments_after
         (run (J := json []) (submit GeneralComment "  hello  " 1000)
            initial_state)
         (fresh [false])
       = Some (c :: comments initial_state)
       /\ Val.get c "text" = Ok (VStr (JS.trim "  hello  "))
       /\ Val.get c "type" = Ok (VStr (type_string GeneralComment))
       /\ Val.get c "createdAt" = Ok (VNum t)
       /\ t = 1000%Z
       /\ (999 <= t)%Z.
Proof.
  split; [discriminate|]. split; [lia|].
  apply (submit_prepends_comment (J := json [])); [discriminate | lia].
Defined.

Example submit_hello :
  comments_after
    (session (J := json []) (submit GeneralComment "  hello  " 1000))
    (fresh [])
  = Some [comment "General Comment" "hello" 1000].
Proof. vm_compute. reflexivity. Qed.

Lemma submit_blank_is_noop_witness :
  JS.trim "   " = ""
  /\ exists st',
       run (J := json []) (submit RequestToEditSteps "   " 1000)
         initial_state (fresh [])
       = (Ok st', fresh [])
       /\ comments st' = comments initial_state.
Proof.
  split; [reflexivity|].
  apply (submit_blank_is_noop (J := json [])). reflexivity.
Defined.

(** C8 as stated fails: a stored comment whose text is the empty
    string passes the shape check and is in the list after mounting. *)
Lemma loaded_comment_with_empty_text :
  exists cs,
    comments_after (session (J := json [blank_stored]) [])
      (storing blank_stored) = Some cs
    /\ ~ Forall has_nonempty_text cs.
Proof.
  exists [comment "General Comment" "" 1].
  split; [vm_compute; reflexivity|].
  intros H. inversion H as [|c cs (s & Hs & Hne) _]; subst.
  vm_compute in Hs. congruence.
Qed.

(** C10 as stated fails: after mounting, a submission of blank text
    triggers no write. *)
Lemma blank_submit_triggers_no_write :
  exists st w,
    mount (J := json []) (fresh []) = (Ok st, w)
    /\ ~ triggers_write (J := json [])
           (run (J := json []) (submit GeneralComment "   " 1000) st) w.
Proof.
  destruct (mount_spec (J := json []) (fresh [])) as (w & ? & ? & Hm & _).
  eexists _, w. split; [exact Hm|].
  intros (st' & w' & ok & between & Hrun & Ha & _).
  rewrite run_submit_rejected in Hrun by reflexivity.
  injection Hrun as _ <-.
  apply (f_equal length) in Ha. simpl in Ha. rewrite length_app in Ha. lia.
Qed.

Lemma writes_follow_list_changes_witness :
  JS.trim "first!" <> ""
  /\ triggers_write (J := json [])
       (run (J := json []) (submit GeneralComment "first!" 1000)
          initial_state)
       (fresh [false]).
Proof.
  split; [discriminate|].
  destruct (writes_follow_list_changes (J := json [])) as (_ & Hsubmit & _).
  apply Hsubmit. discriminate.
Defined.

(** A failing write leaves the slot behind the list; the next
    successful one brings it back in step. *)
Example failed_write_then_success :
  (fun r => (comments_after (fun _ => r) (fresh []),
             localStorage r.2 !! STORAGE_KEY))
    (session (J := json [])
       (submit GeneralComment "a" 1 ++ submit GeneralComment "b" 2)
       (fresh [true; false; true]))
  = (Some [comment "General Comment" "b" 2; comment "General Comment" "a" 1],
     Some (print (VArr [comment "General Comment" "b" 2;
                        comment "General Comment" "a" 1]))).
Proof. vm_compute. reflexivity. Qed.

End WorkedExamples.

(** ** Further properties of the locator filter *)

Section FilterComposition.

Import Sample.

Lemma trimStart_blank ws : all_whitespace ws = true -> JS.trimStart ws = "".
Proof.
  induction ws as [|c ws IH]; [done|]. simpl.
  intros [Hc Hws]%andb_true_iff. rewrite Hc. auto.
Qed.

Lemma trimEnd_blank ws : all_whitespace ws = true -> JS.trimEnd ws = "".
Proof.
  induction ws as [|c ws IH]; [done|]. simpl.
  intros [Hc Hws]%andb_true_iff. by rewrite IH, Hc.
Qed.

Lemma trimStart_pad ws s :
  all_whitespace ws = true -> JS.trimStart (ws +:+ s) = JS.trimStart s.
Proof.
  induction ws as [|c ws IH]; [done|]. simpl.
  intros [Hc Hws]%andb_true_iff. rewrite ?app_cons. simpl. rewrite Hc. auto.
Qed.

Lemma trimEnd_pad s ws :
  all_whitespace ws = true -> JS.trimEnd (s +:+ ws) = JS.trimEnd s.
Proof.
  intros Hws. induction s as [|c s IH].
  - rewrite app_empty_l. by apply trimEnd_blank.
  - rewrite app_cons. simpl. by rewrite IH.
Qed.

Lemma trim_pad a q b :
  all_whitespace a = true -> all_whitespace b = true ->
  JS.trim (a +:+ q +:+ b) = JS.trim q.
Proof.
  intros Ha Hb. unfold JS.trim. rewrite trimStart_pad by done.
  induction q as [|c q IH].
  - rewrite app_empty_l. by rewrite trimStart_blank.
  - rewrite app_cons. simpl. destruct (JS.is_whitespace c); [done|].
    by rewrite <- app_cons, trimEnd_pad.
Qed.

Lemma trimStart_lower s :
  JS.trimStart (JS.toLowerCase s) = JS.toLowerCase (JS.trimStart s).
Proof.
  induction s as [|c s IH]; [done|]. simpl.
  rewrite lower_unit_whitespace. by destruct (JS.is_whitespace c).
Qed.

Lemma trimEnd_lower s :
  JS.trimEnd (JS.toLowerCase s) = JS.toLowerCase (JS.trimEnd s).
Proof.
  induction s as [|c s IH]; [done|]. simpl.
  rewrite IH, lower_unit_whitespace.
  destruct (JS.trimEnd s); simpl; [|done].
  by destruct (JS.is_whitespace c).
Qed.

Lemma trim_lower s : JS.trim (JS.toLowerCase s) = JS.toLowerCase (JS.trim s).
Proof. unfold JS.trim. by rewrite trimStart_lower, trimEnd_lower. Qed.

Lemma filter_sublist {A} (p : A -> bool) (l : list A) :
  List.filter p l `sublist_of` l.
Proof.
  induction l as [|x l IH]; [constructor|]. simpl.
  destruct (p x); by constructor.
Qed.

Lemma filter_refine {A} (p q : A -> bool) (l : list A) :
  (forall x, p x = true -> q x = true) ->
  List.filter p (List.filter q l) = List.filter p l.
Proof.
  intros Hpq. induction l as [|x l IH]; [done|]. simpl.
  destruct (q x) eqn:Hq; simpl.
  - by rewrite IH.
  - destruct (p x) eqn:Hp; [|done]. apply Hpq in Hp. congruence.
Qed.

(** X1: for every query the result is a sublist of the office list:
    offices of the list only, each at most as often as in the list, in
    the order of the list. *)
Theorem filterDmvs_sublist (offices : list DmvOffice) (query : string) :
  filterDmvs offices query `sublist_of` offices.
Proof.
  unfold filterDmvs.
  destruct (JS.not_string _); [done | apply filter_sublist].
Qed.

(** X2: filtering the result again with the same query changes
    nothing. *)
Theorem filterDmvs_idempotent (offices : list DmvOffice) (query : string) :
  filterDmvs (filterDmvs offices query) query = filterDmvs offices query.
Proof.
  unfold filterDmvs.
  destruct (JS.not_string _); [done|]. by apply filter_refine.
Qed.

(** X3: the letter case of the query does not matter: two queries that
    differ by case only give the same result. *)
Theorem filterDmvs_query_case (offices : list DmvOffice) (q1 q2 : string) :
  case_variant q1 q2 -> filterDmvs offices q1 = filterDmvs offices q2.
Proof.
  unfold case_variant, filterDmvs. intros Hcv.
  by rewrite <- !trim_lower, Hcv.
Qed.

Lemma filterDmvs_query_case_witness :
  case_variant "St Louis" "sT LOUIS"
  /\ filterDmvs permitDmvs "St Louis" = filterDmvs permitDmvs "sT LOUIS".
Proof.
  split; [reflexivity | apply filterDmvs_query_case; reflexivity].
Defined.

(** X4: whitespace around the query does not matter. *)
Theorem filterDmvs_query_padding
    (offices : list DmvOffice) (before query after : string) :
  all_whitespace before = true ->
  all_whitespace after = true ->
  filterDmvs offices (before +:+ query +:+ after) = filterDmvs offices query.
Proof.
  intros Hb Ha. unfold filterDmvs. by rewrite trim_pad.
Qed.

Lemma filterDmvs_query_padding_witness :
  all_whitespace "  " = true
  /\ all_whitespace " " = true
  /\ filterDmvs permitDmvs ("  " +:+ "olive blvd" +:+ " ")
     = filterDmvs permitDmvs "olive blvd".
Proof.
  split; [reflexivity|]. split; [reflexivity|].
  apply filterDmvs_query_padding; reflexivity.
Defined.

(** X5: each office is judged on its own: the result for two lists put
    end to end is the two results put end to end. *)
Theorem filterDmvs_app (l1 l2 : list DmvOffice) (query : string) :
  filterDmvs (l1 ++ l2) query = filterDmvs l1 query ++ filterDmvs l2 query.
Proof.
  unfold filterDmvs.
  destruct (JS.not_string _); [done | apply List.filter_app].
Qed.

(** X6: a longer query narrows the result. When the lowercased trimmed
    first query occurs in the lowercased trimmed second one, filtering
    with the second query gives the same from the whole list as from
    the result of the first. *)
Theorem filterDmvs_narrowing (offices : list DmvOffice) (q1 q2 : string) :
  substring_of (JS.toLowerCase (JS.trim q1)) (JS.toLowerCase (JS.trim q2)) ->
  filterDmvs (filterDmvs offices q1) q2 = filterDmvs offices q2.
Proof.
  intros Hsub. unfold filterDmvs.
  destruct (JS.not_string (JS.toLowerCase (JS.trim q2))) eqn:E2.
  - apply not_string_true in E2. rewrite E2 in Hsub.
    destruct Hsub as (pre & post & Hsub).
    destruct pre; [|discriminate]. rewrite app_empty_l in Hsub.
    destruct (JS.toLowerCase (JS.trim q1)); [done | discriminate].
  - destruct (JS.not_string (JS.toLowerCase (JS.trim q1))); [done|].
    apply filter_refine. intros d Hd.
    apply includes_spec. apply includes_spec in Hd.
    by apply substring_of_trans with (JS.toLowerCase (JS.trim q2)).
Qed.

Lemma filterDmvs_narrowing_witness :
  substring_of (JS.toLowerCase (JS.trim " olive "))
    (JS.toLowerCase (JS.trim "Olive Blvd, St"))
  /\ filterDmvs (filterDmvs permitDmvs " olive ") "Olive Blvd, St"
     = filterDmvs permitDmvs "Olive Blvd, St".
Proof.
  assert (substring_of (JS.toLowerCase (JS.trim " olive "))
            (JS.toLowerCase (JS.trim "Olive Blvd, St"))) as H
    by (by exists "", " blvd, st").
  split; [exact H | by apply filterDmvs_narrowing].
Defined.

Lemma existsb_filter_in {A} (p q : A -> bool) (l : list A) :
  existsb p (List.filter q l) = true <->
  exists x, In x l /\ q x = true /\ p x = true.
Proof.
  rewrite existsb_exists. split.
  - intros (x & [Hin Hq]%filter_In & Hp). eauto.
  - intros (x & Hin & Hq & Hp). exists x. by rewrite filter_In.
Qed.

Lemma includes_field_lower (d : DmvOffice) (f q : string) :
  f = name d \/ f = address d \/ f = phone d ->
  JS.includes (JS.toLowerCase f) (JS.toLowerCase q) = true ->
  JS.includes (JS.toLowerCase (office_text d)) (JS.toLowerCase q) = true.
Proof.
  intros Hf Hinc. apply includes_spec. apply includes_spec in Hinc.
  eapply substring_of_trans; [exact Hinc|].
  by apply substring_of_lower, field_in_office_text.
Qed.

Lemma filterDmvs_lowered (offices : list DmvOffice) (q lowered : string) :
  JS.toLowerCase (JS.trim q) = lowered -> lowered <> "" ->
  filterDmvs offices q
  = List.filter
      (fun d => JS.includes (JS.toLowerCase (office_text d)) lowered) offices.
Proof.
  intros <- Hne. unfold filterDmvs.
  destruct (JS.not_string _) eqn:E; [|done]. by apply not_string_true in E.
Qed.

(** X7: the five assertions of the development block hold for an office
    list exactly when it has an office whose name contains AFTON, one
    whose phone contains 631-1311 and one whose address contains gravois
    in any letter case. *)
Theorem dev_assertions_hold_iff (offices : list DmvOffice) :
  forallb id (dev_assertions offices) = true
  <-> (exists d, In d offices /\ JS.includes (name d) "AFTON" = true)
      /\ (exists d, In d offices /\ JS.includes (phone d) "631-1311" = true)
      /\ (exists d, In d offices
                    /\ JS.includes (JS.toLowerCase (address d)) "gravois" = true).
Proof.
  unfold dev_assertions.
  change (filterDmvs offices "") with offices.
  rewrite (filterDmvs_lowered offices "AFTON" "afton") by done.
  rewrite (filterDmvs_lowered offices "afton" "afton") by done.
  rewrite (filterDmvs_lowered offices "631-1311" "631-1311") by done.
  rewrite (filterDmvs_lowered offices "Gravois" "gravois") by done.
  cbn [forallb]. unfold id.
  rewrite Nat.eqb_refl, !andb_true_iff, !existsb_filter_in.
  split.
  - intros (_ & (d1 & ? & _ & ?) & (d2 & ? & _ & ?) & _ & (d3 & ? & _ & ?) & _).
    (split; [|split]); [by exists d1 | by exists d2 | by exists d3].
  - intros ((d1 & Hin1 & H1) & (d2 & Hin2 & H2) & (d3 & Hin3 & H3)).
    assert (JS.includes (JS.toLowerCase (office_text d1)) "afton" = true)
      as Ht1.
    { apply (includes_field_lower d1 (name d1) "AFTON"); [by left|].
      apply includes_spec, (substring_of_lower "AFTON" (name d1)).
      apply includes_spec. exact H1. }
    assert (JS.includes (JS.toLowerCase (office_text d2)) "631-1311" = true)
      as Ht2.
    { apply (includes_field_lower d2 (phone d2) "631-1311"); [by right; right|].
      apply includes_spec, (substring_of_lower "631-1311" (phone d2)).
      apply includes_spec. exact H2. }
    assert (JS.includes (JS.toLowerCase (office_text d3)) "gravois" = true)
      as Ht3.
    { apply (includes_field_lower d3 (address d3) "gravois"); [right; by left|].
      exact H3. }
    split; [reflexivity|].
    split; [exists d1; split; [exact Hin1 | split; [exact Ht1 | exact H1]]|].
    split; [exists d2; split; [exact Hin2 | split; [exact Ht2 | exact H2]]|].
    split; [exists d1; split; [exact Hin1 | split; [exact Ht1 | exact H1]]|].
    split; [exists d3; split; [exact Hin3 | split; [exact Ht3 | exact H3]]|].
    reflexivity.
Qed.

(** The assertions hold for the office list the page ships. *)
Lemma dev_assertions_hold_iff_witness :
  forallb id (dev_assertions permitDmvs) = true.
Proof.
  apply dev_assertions_hold_iff.
  (split; [|split]); exists afton; (split; [left; reflexivity | reflexivity]).
Defined.

End FilterComposition.

(** ** Further properties of the comment store *)

Section ComponentComposition.

Context {J : JSON}.

Lemma run_app evs1 evs2 : forall st w,
  run (evs1 ++ evs2) st w =
  match run evs1 st w with
  | (Ok st', w') => run evs2 st' w'
  | (Throw e, w') => (Throw e, w')
  end.
Proof.
  induction evs1 as [|ev evs1 IH]; intros st w; [done|].
  rewrite <- app_comm_cons, !run_cons.
  destruct (step ev st w) as [[st1|e] w1]; [apply IH | done].
Qed.

Lemma save_effect_succeeds cs w rest :
  write_outcomes w = true :: rest ->
  save_effect cs w =
  (Ok tt,
   {| localStorage := <[STORAGE_KEY := JSON_stringify (VArr cs)]> (localStorage w);
      write_outcomes := rest;
      attempts := (STORAGE_KEY, JSON_stringify (VArr cs), true) :: attempts w |}).
Proof.
  intros H. unfold save_effect, try_catch, setItem. by rewrite H.
Qed.

Lemma save_effect_fails cs w rest :
  write_outcomes w = false :: rest ->
  save_effect cs w =
  (Ok tt,
   {| localStorage := localStorage w;
      write_outcomes := rest;
      attempts := (STORAGE_KEY, JSON_stringify (VArr cs), false) :: attempts w |}).
Proof.
  intros H. unfold save_effect, try_catch, setItem. by rewrite H.
Qed.

Lemma save_effect_other_keys cs w :
  exists w',
    save_effect cs w = (Ok tt, w')
    /\ forall k, k <> STORAGE_KEY ->
                 localStorage w' !! k = localStorage w !! k.
Proof.
  destruct (save_effect_spec cs w) as [[|] ->]; eexists; (split; [done|]);
    intros k Hk; cbn [localStorage]; [by apply lookup_insert_ne | done].
Qed.

Lemma step_other_keys ev st w :
  exists r w',
    step ev st w = (r, w')
    /\ forall k, k <> STORAGE_KEY ->
                 localStorage w' !! k = localStorage w !! k.
Proof.
  destruct ev as [t | s | now]; cbn [step]; [by eexists _, _..|].
  destruct (handleSubmit now st) as [st' [|]]; [|by eexists _, _].
  unfold bind.
  destruct (save_effect_other_keys (comments st') w) as (w' & -> & Hk).
  by eexists _, _.
Qed.

Lemma run_other_keys evs : forall st w,
  exists r w',
    run evs st w = (r, w')
    /\ forall k, k <> STORAGE_KEY ->
                 localStorage w' !! k = localStorage w !! k.
Proof.
  induction evs as [|ev evs IH]; intros st w; [by eexists _, _|].
  rewrite run_cons.
  destruct (step_other_keys ev st w) as ([st1|e] & w1 & -> & H1).
  - destruct (IH st1 w1) as (r & w' & -> & H2).
    exists r, w'. split; [done|]. intros k Hk. by rewrite H2, H1.
  - by eexists _, _.
Qed.

Lemma mount_other_keys w :
  exists st w',
    mount w = (Ok st, w')
    /\ forall k, k <> STORAGE_KEY ->
                 localStorage w' !! k = localStorage w !! k.
Proof.
  unfold mount. unfold bind at 1.
  pose proof (load_effect_spec w) as E.
  destruct (load_effect w) as [[update|e] w0]; [|discriminate].
  injection E as _ ->. unfold bind at 1.
  destruct (save_effect_other_keys (comments initial_state) w)
    as (w1 & -> & H1).
  destruct update as [safe|]; [|by eexists _, _].
  unfold bind.
  destruct (save_effect_other_keys safe w1) as (w2 & -> & H2).
  eexists _, _. split; [done|]. intros k Hk. by rewrite H2, H1.
Qed.

Lemma session_shape evs w :
  exists st w',
    session evs w = (Ok st, w')
    /\ Forall (fun c => is_Comment c = true) (comments st)
    /\ in_sync (comments st) w'.
Proof.
  unfold session, bind.
  destruct (mount_spec w) as (w0 & ok & between & -> & Ha & Hs).
  match goal with |- context [run evs ?st0 w0] =>
    destruct (run_invariant evs st0 w0)
      as (st & w' & added & -> & Hl & _ & Hsh & Hsync) end.
  cbn [comments] in *. exists st, w'. split; [done|]. split.
  - rewrite Hl. apply Forall_app. split; [done | apply loaded_list_shape].
  - apply Hsync. by exists ok, (between ++ attempts w).
Qed.

Lemma Forall_is_Comment_forallb (cs : list value) :
  Forall (fun c => is_Comment c = true) cs -> forallb is_Comment cs = true.
Proof.
  induction 1 as [|c cs Hc _ IH]; [done|]. simpl. by rewrite Hc, IH.
Qed.

Lemma step_length ev st w :
  exists st' w',
    step ev st w = (Ok st', w')
    /\ length (comments st') <= length (comments st)
                                + (if is_click ev then 1 else 0).
Proof.
  destruct ev as [t | s | now]; cbn [step is_click].
  - eexists _, _. split; [done|]. cbn [comments]. lia.
  - eexists _, _. split; [done|]. cbn [comments]. lia.
  - destruct (JS.trim (text st)) as [|a r] eqn:Htrim.
    + rewrite handleSubmit_rejected by done.
      eexists _, _. split; [done|]. lia.
    + rewrite handleSubmit_accepted by congruence. unfold bind.
      match goal with |- context [save_effect ?cs w] =>
        destruct (save_effect_spec cs w) as [ok ->] end.
      eexists _, _. split; [done|]. cbn [comments length]. lia.
Qed.

Lemma run_length evs : forall st w,
  exists st' w',
    run evs st w = (Ok st', w')
    /\ length (comments st') <= length (comments st)
                                + length (List.filter is_click evs).
Proof.
  induction evs as [|ev evs IH]; intros st w.
  { exists st, w. split; [done|]. simpl. lia. }
  rewrite run_cons.
  destruct (step_length ev st w) as (st1 & w1 & -> & H1).
  destruct (IH st1 w1) as (st' & w' & -> & H2).
  exists st', w'. split; [done|]. cbn [List.filter].
  destruct (is_click ev); cbn [length]; lia.
Qed.

(** X8: the test of the load effect never throws. Where reading a
    property of the element would throw (on [null] and [undefined]) the
    test answers false before any read, so the filter over a parsed
    array always returns, with the elements of the Comment shape. *)
Theorem shape_check_guards_property_reads :
  (forall xs, array_filter shape_check xs = Ok (List.filter is_Comment xs))
  /\ (forall x k e, Val.get x k = Throw e -> shape_check x = Ok false).
Proof.
  split; [apply array_filter_spec|].
  intros x k e H. by destruct x.
Qed.

(** X9: at the end of any session every element of the list has the
    Comment shape: a type that is one of the two kinds, a string as
    text and a number as createdAt. *)
Theorem session_keeps_comment_shape (evs : list event) (w : world) :
  exists st w',
    session evs w = (Ok st, w')
    /\ Forall (fun c => is_Comment c = true) (comments st).
Proof.
  destruct (session_shape evs w) as (st & w' & E & Hsh & _). eauto.
Qed.

(** X10: the list has at most 200 elements more than there were clicks
    on the submit button in the session. *)
Theorem session_length_bound (evs : list event) (w : world) :
  exists st w',
    session evs w = (Ok st, w')
    /\ length (comments st) <= 200 + length (List.filter is_click evs).
Proof.
  unfold session, bind.
  destruct (mount_spec w) as (w0 & ? & ? & -> & _).
  match goal with |- context [run evs ?st0 w0] =>
    destruct (run_length evs st0 w0) as (st & w' & -> & Hlen) end.
  exists st, w'. split; [done|]. cbn [comments] in Hlen.
  pose proof (loaded_list_length (localStorage w !! STORAGE_KEY)). lia.
Qed.

(** X11: submissions stack up newest first. After a series of
    submissions the list is the comments of those whose text does not
    trim to the empty string, the last submitted first, in front of the
    comments that were there. *)
Theorem submissions_newest_first
    (subs : list (CommentType * string * Z)) (st : state) (w : world) :
  comments_after (run (submit_all subs) st) w
  = Some (rev (List.map submitted
                 (List.filter
                    (fun s => negb (JS.not_string (JS.trim s.1.2))) subs))
            ++ comments st).
Proof.
  revert st w. induction subs as [|[[kind rawText] now] subs IH]; intros st w.
  { done. }
  unfold submit_all in *. cbn [flat_map List.filter fst snd].
  unfold comments_after in *. rewrite run_app.
  destruct (JS.trim rawText) as [|a r] eqn:Htrim.
  - rewrite run_submit_rejected by done. cbn [JS.not_string negb].
    by rewrite IH.
  - assert (JS.trim rawText <> "") as Hne by congruence.
    destruct (run_submit_accepted kind rawText now st w Hne)
      as (w' & ok & -> & _).
    rewrite IH. cbn [JS.not_string negb List.map rev comments].
    rewrite <- app_assoc. reflexivity.
Qed.

Lemma step_click_rejected now st w :
  JS.trim (text st) = "" -> step (ClickSubmit now) st w = (Ok st, w).
Proof. intros H. cbn [step]. by rewrite handleSubmit_rejected. Qed.

Lemma step_click_accepted now st w :
  JS.trim (text st) <> "" ->
  exists w',
    step (ClickSubmit now) st w =
    (Ok {| type := type st; text := "";
           comments := VObj [("type", VStr (type_string (type st)));
                             ("text", VStr (JS.trim (text st)));
                             ("createdAt", VNum now)] :: comments st |}, w').
Proof.
  intros H. cbn [step]. rewrite handleSubmit_accepted by done. unfold bind.
  match goal with |- context [save_effect ?cs w] =>
    destruct (save_effect_spec cs w) as [ok ->] end.
  by eexists.
Qed.

(** X12: a second click on the submit button, with nothing typed in
    between, adds nothing and writes nothing: an accepted submission
    clears the text box, so the second click is rejected. *)
Theorem double_click_submits_once (now1 now2 : Z) (st : state) (w : world) :
  run [ClickSubmit now1; ClickSubmit now2] st w = run [ClickSubmit now1] st w.
Proof.
  rewrite !run_cons.
  destruct (JS.trim (text st)) as [|a r] eqn:Htrim.
  - rewrite step_click_rejected by done. rewrite run_cons.
    by rewrite step_click_rejected.
  - destruct (step_click_accepted now1 st w) as (w' & ->); [congruence|].
    rewrite run_cons. by rewrite step_click_rejected.
Qed.

(** X13: a session never touches another key of [localStorage] than the
    fixed one. *)
Theorem session_keeps_other_keys (evs : list event) (w : world) (k : string) :
  k <> STORAGE_KEY ->
  exists st w',
    session evs w = (Ok st, w')
    /\ localStorage w' !! k = localStorage w !! k.
Proof.
  intros Hk. unfold session, bind.
  destruct (mount_other_keys w) as (st0 & w0 & -> & H0).
  destruct (run_other_keys evs st0 w0) as (r & w' & E & H1).
  destruct (run_invariant evs st0 w0) as (st & w'' & added & E' & _).
  rewrite E' in E. injection E as <- <-. rewrite E'.
  exists st, w''. split; [done|]. by rewrite H1, H0.
Qed.

(** X14: comments survive a reload. When the last write of a session
    succeeded and the serialized list parses back to itself, mounting
    again on the storage the session left gives the first 200 comments
    of its list. *)
Theorem comments_survive_reload
    (evs : list event) (w w' w2 : world) (st : state) :
  session evs w = (Ok st, w') ->
  (exists k v older, attempts w' = (k, v, true) :: older) ->
  JSON_parse (JSON_stringify (VArr (comments st))) = Some (VArr (comments st)) ->
  localStorage w2 = localStorage w' ->
  comments_after mount w2 = Some (take 200 (comments st)).
Proof.
  intros Hsession (k & v & older & Hlast) Hparse Hstore.
  destruct (session_shape evs w)
    as (st0 & w0 & E & Hshape & (ok & older' & Ha & Hslot)).
  rewrite Hsession in E. injection E as <- <-.
  rewrite Hlast in Ha. injection Ha as _ _ <- _.
  rewrite mount_comments, Hstore, Hslot by done. unfold loaded_list.
  rewrite Hparse.
  by rewrite (filter_all_valid _ (Forall_is_Comment_forallb _ Hshape)).
Qed.

(** X15: the first save effect of a mount writes the empty list before
    the loaded one is written. When that first write succeeds and the
    second fails, the component shows the loaded comments but the slot
    holds the serialized empty list. *)
Theorem mount_failed_rewrite_empties_slot
    (w : world) (raw : string) (items : list value) (rest : list bool) :
  localStorage w !! STORAGE_KEY = Some raw ->
  JSON_parse raw = Some (VArr items) ->
  write_outcomes w = true :: false :: rest ->
  exists st w',
    mount w = (Ok st, w')
    /\ comments st = take 200 (List.filter is_Comment items)
    /\ localStorage w' !! STORAGE_KEY = Some (JSON_stringify (VArr [])).
Proof.
  intros Hraw Hparse Hout. unfold mount. unfold bind at 1.
  rewrite load_effect_spec, Hraw, Hparse. unfold bind at 1.
  rewrite (save_effect_succeeds _ w (false :: rest)) by done.
  unfold bind.
  rewrite (save_effect_fails _ _ rest) by done.
  eexists _, _. split; [done|]. split; [done|].
  cbn [localStorage]. apply lookup_insert_eq.
Qed.

End ComponentComposition.

(** ** The checklist of the guide *)

Section ChecklistFacts.

Lemma is_checked_toggle_same item (prev : gmap string bool) :
  is_checked (toggleCheck item prev) item = negb (is_checked prev item).
Proof. unfold toggleCheck, is_checked at 1. by rewrite lookup_insert_eq. Qed.

Lemma is_checked_toggle_other item k (prev : gmap string bool) :
  k <> item -> is_checked (toggleCheck item prev) k = is_checked prev k.
Proof.
  intros Hk. unfold toggleCheck, is_checked at 1.
  by rewrite lookup_insert_ne.
Qed.

(** X16: toggling an item flips how that item reads and leaves the
    reading of every other key as it was. *)
Theorem toggleCheck_reading (item k : string) (prev : gmap string bool) :
  is_checked (toggleCheck item prev) k
  = if String.eqb k item then negb (is_checked prev k) else is_checked prev k.
Proof.
  destruct (String.eqb_spec k item) as [->|Hne].
  - apply is_checked_toggle_same.
  - by apply is_checked_toggle_other.
Qed.

(** X17: toggling an item twice restores every reading. The map is the
    old one with the item's key set to its old reading, so a key that
    was never set is now stored as false. *)
Theorem toggleCheck_twice (item : string) (prev : gmap string bool) :
  toggleCheck item (toggleCheck item prev)
  = <[item := is_checked prev item]> prev
  /\ forall k, is_checked (toggleCheck item (toggleCheck item prev)) k
               = is_checked prev k.
Proof.
  split.
  - unfold toggleCheck at 1. rewrite is_checked_toggle_same, negb_involutive.
    unfold toggleCheck. apply insert_insert_eq.
  - intros k. destruct (String.eqb_spec k item) as [->|Hne].
    + by rewrite !is_checked_toggle_same, negb_involutive.
    + by rewrite !is_checked_toggle_other.
Qed.

(** X18: toggles of two different items commute. *)
Theorem toggleCheck_commute (a b : string) (prev : gmap string bool) :
  a <> b ->
  toggleCheck a (toggleCheck b prev) = toggleCheck b (toggleCheck a prev).
Proof.
  intros Hab. unfold toggleCheck at 1 3.
  rewrite !is_checked_toggle_other by congruence.
  unfold toggleCheck. rewrite insert_insert. by case_decide.
Qed.

Lemma toggleCheck_commute_witness :
  "visa" <> "i94"
  /\ toggleCheck "visa" (toggleCheck "i94" {[ "visa" := true ]})
     = toggleCheck "i94" (toggleCheck "visa" {[ "visa" := true ]}).
Proof.
  split; [discriminate | apply toggleCheck_commute; discriminate].
Defined.

Lemma progressDone_unfold (prev : gmap string bool) :
  progressDone prev =
  Nat.b2n (is_checked prev "nossn") + Nat.b2n (is_checked prev "passport")
  + Nat.b2n (is_checked prev "visa") + Nat.b2n (is_checked prev "i94")
  + Nat.b2n (is_checked prev "address").
Proof.
  unfold progressDone, progress_keys. cbn [List.filter].
  destruct (is_checked prev "nossn"), (is_checked prev "passport"),
    (is_checked prev "visa"), (is_checked prev "i94"),
    (is_checked prev "address"); reflexivity.
Qed.

(** X19: the progress count never exceeds the total of 5, is 0 when
    nothing was ever toggled, and reaches the total exactly when all
    five documents read as checked. *)
Theorem progressDone_bounds (prev : gmap string bool) :
  progressDone prev <= progressTotal
  /\ progressDone ∅ = 0
  /\ (progressDone prev = progressTotal
      <-> forallb (is_checked prev) progress_keys = true).
Proof.
  split; [|split; [reflexivity|]].
  - rewrite progressDone_unfold. unfold progressTotal.
    destruct (is_checked prev "nossn"), (is_checked prev "passport"),
      (is_checked prev "visa"), (is_checked prev "i94"),
      (is_checked prev "address"); simpl; lia.
  - rewrite progressDone_unfold. unfold progressTotal, progress_keys.
    cbn [forallb].
    destruct (is_checked prev "nossn"), (is_checked prev "passport"),
      (is_checked prev "visa"), (is_checked prev "i94"),
      (is_checked prev "address"); simpl; split; (lia || congruence).
Qed.

Ltac count_readings :=
  repeat first
    [ rewrite is_checked_toggle_same
    | rewrite is_checked_toggle_other by (discriminate || congruence) ];
  destruct (is_checked _ "nossn"), (is_checked _ "passport"),
    (is_checked _ "visa"), (is_checked _ "i94"), (is_checked _ "address");
  simpl; lia.

(** X20: toggling one of the five tracked items moves the progress count
    by exactly one, up when the item read unchecked and down when it
    read checked; toggling any other id leaves the count as it was. *)
Theorem progressDone_toggle (id : string) (prev : gmap string bool) :
  progressDone (toggleCheck id prev)
  = if existsb (String.eqb id) progress_keys
    then if is_checked prev id
         then progressDone prev - 1
         else progressDone prev + 1
    else progressDone prev.
Proof.
  rewrite !progressDone_unfold. unfold progress_keys. cbn [existsb].
  destruct (String.eqb_spec id "nossn") as [->|?]; [by count_readings|].
  destruct (String.eqb_spec id "passport") as [->|?]; [by count_readings|].
  destruct (String.eqb_spec id "visa") as [->|?]; [by count_readings|].
  destruct (String.eqb_spec id "i94") as [->|?]; [by count_readings|].
  destruct (String.eqb_spec id "address") as [->|?]; [by count_readings|].
  by rewrite !is_checked_toggle_other by congruence.
Qed.

Lemma guide_step_reading (ev : guide_event) (g : guide) (id : string) :
  is_checked (checked (guide_step ev g)) id
  = xorb (is_checked (checked g) id) (toggles id ev).
Proof.
  assert (forall i, is_checked (toggleCheck i (checked g)) id
                    = xorb (is_checked (checked g) id) (String.eqb i id))
    as Htoggle.
  { intros i. destruct (String.eqb_spec i id) as [->|Hne].
    - rewrite is_checked_toggle_same. by destruct (is_checked _ _).
    - rewrite is_checked_toggle_other by congruence.
      by destruct (is_checked _ _). }
  destruct ev as [i | i key | q]; cbn [guide_step toggles].
  - apply Htoggle.
  - destruct (String.eqb key "Enter" || String.eqb key " "); cbn [checked].
    + by rewrite Htoggle, andb_true_r.
    + rewrite andb_false_r. by destruct (is_checked _ _).
  - by destruct (is_checked _ _).
Qed.

(** X21: after any series of clicks and key presses an item reads as
    checked exactly when its reading was flipped an odd number of times:
    by clicks on it and by Enter or Space pressed on it, and by nothing
    else. From the initial state it is checked exactly when it was
    toggled an odd number of times. *)
Theorem checked_iff_odd_toggles
    (evs : list guide_event) (g : guide) (id : string) :
  is_checked (checked (guide_run evs g)) id
  = xorb (is_checked (checked g) id)
         (Nat.odd (length (List.filter (toggles id) evs)))
  /\ is_checked (checked (guide_run evs initial_guide)) id
     = Nat.odd (length (List.filter (toggles id) evs)).
Proof.
  assert (forall g, is_checked (checked (guide_run evs g)) id
                    = xorb (is_checked (checked g) id)
                        (Nat.odd (length (List.filter (toggles id) evs))))
    as Hgen.
  { induction evs as [|ev evs IH]; intros g0.
    - cbn. by destruct (is_checked _ _).
    - unfold guide_run in *. cbn [fold_left List.filter].
      rewrite IH, guide_step_reading.
      destruct (toggles id ev); cbn [length].
      + rewrite Nat.odd_succ, <- Nat.negb_odd.
        by destruct (is_checked _ _), (Nat.odd _).
      + by destruct (is_checked _ _), (Nat.odd _). }
  split; [apply Hgen|]. by rewrite Hgen.
Qed.

End ChecklistFacts.

(** ** Worked examples for the further properties *)

Section FurtherExamples.

Import Sample.

Lemma progressDone_bounds_witness :
  forallb (is_checked (foldr toggleCheck ∅ progress_keys)) progress_keys = true
  /\ progressDone (foldr toggleCheck ∅ progress_keys) = progressTotal.
Proof.
  split; [vm_compute; reflexivity|].
  destruct (progressDone_bounds (foldr toggleCheck ∅ progress_keys))
    as (_ & _ & [_ Hall]).
  apply Hall. vm_compute. reflexivity.
Defined.

Lemma shape_check_guards_property_reads_witness :
  Val.get VNull "type" = Throw TypeError
  /\ shape_check VNull = Ok false.
Proof.
  split; [reflexivity|].
  destruct shape_check_guards_property_reads as [_ Hguard].
  apply (Hguard VNull "type" TypeError). reflexivity.
Defined.

Lemma session_keeps_other_keys_witness :
  "theme" <> STORAGE_KEY
  /\ exists st w',
       session (J := json []) (submit GeneralComment "hello" 1000)
         {| localStorage := {[ "theme" := "dark" ]};
            write_outcomes := [];
            attempts := [] |}
       = (Ok st, w')
       /\ localStorage w' !! "theme"
          = ({[ "theme" := "dark" ]} : gmap string string) !! "theme".
Proof.
  split; [discriminate|].
  apply (session_keeps_other_keys (J := json [])). discriminate.
Defined.

Lemma comments_survive_reload_witness :
  exists st w',
    session (J := json [VArr [comment "General Comment" "hello" 1000]])
      (submit GeneralComment "  hello " 1000) (fresh [])
    = (Ok st, w')
    /\ comments_after
         (mount (J := json [VArr [comment "General Comment" "hello" 1000]]))
         w'
       = Some (take 200 (comments st)).
Proof.
  eexists _, _. split; [vm_compute; reflexivity|].
  eapply (comments_survive_reload
            (J := json [VArr [comment "General Comment" "hello" 1000]])
            (submit GeneralComment "  hello " 1000) (fresh [])).
  - vm_compute. reflexivity.
  - eexists _, _, _. vm_compute. reflexivity.
  - vm_compute. reflexivity.
  - reflexivity.
Defined.

Lemma mount_failed_rewrite_empties_slot_witness :
  exists st w',
    mount (J := json [VArr (valid_comments 2)])
      {| localStorage := {[ STORAGE_KEY := print (VArr (valid_comments 2)) ]};
         write_outcomes := [true; false];
         attempts := [] |}
    = (Ok st, w')
    /\ comments st = take 200 (List.filter is_Comment (valid_comments 2))
    /\ localStorage w' !! STORAGE_KEY = Some (print (VArr [])).
Proof.
  apply (mount_failed_rewrite_empties_slot
           (J := json [VArr (valid_comments 2)]) _
           (print (VArr (valid_comments 2))) (valid_comments 2) []);
    vm_compute; reflexivity.
Defined.

End FurtherExamples.

(** ** The locator filter over any alphabet *)

Section UnitsFacts.

Context {A : Alphabet}.

Lemma startsWith_spec (s t : list code_unit) :
  Units.startsWith s t = true <-> exists post, s = t ++ post.
Proof.
  revert s. induction t as [|a t IH]; intros s.
  - split; [intros _; by exists s | by destruct s].
  - destruct s as [|b s]; cbn [Units.startsWith].
    + split; [discriminate | intros [post H]; discriminate].
    + rewrite andb_true_iff, bool_decide_eq_true, IH. split.
      * intros [-> [post ->]]. by exists post.
      * intros [post H]. injection H as -> ->. eauto.
Qed.

Lemma includes_units_spec (s t : list code_unit) :
  Units.includes s t = true <-> Units.run_of t s.
Proof.
  unfold Units.run_of. induction s as [|c s IH]; cbn [Units.includes].
  - destruct (Units.startsWith [] t) eqn:P.
    + apply startsWith_spec in P as [post P]. split; [|done].
      intros _. by exists [], post.
    + split; [discriminate|]. intros (pre & post & H).
      destruct pre; [|discriminate].
      assert (Units.startsWith [] t = true) by (apply startsWith_spec; eauto).
      congruence.
  - destruct (Units.startsWith (c :: s) t) eqn:P.
    + apply startsWith_spec in P as [post P]. split; [|done].
      intros _. by exists [], post.
    + rewrite IH. split.
      * intros (pre & post & ->). by exists (c :: pre), post.
      * intros (pre & post & H). destruct pre as [|d pre].
        -- assert (Units.startsWith (c :: s) t = true)
             by (apply startsWith_spec; eauto).
           congruence.
        -- injection H as _ ->. eauto.
Qed.

Lemma trimStart_units_split (s : list code_unit) :
  exists ws, s = ws ++ Units.trimStart s.
Proof.
  induction s as [|c s [ws IH]]; [by exists []|].
  cbn [Units.trimStart]. destruct (whitespace c).
  - exists (c :: ws). by rewrite <- app_comm_cons, <- IH.
  - by exists [].
Qed.

Lemma trimEnd_units_split (s : list code_unit) :
  exists ws, s = Units.trimEnd s ++ ws.
Proof.
  induction s as [|c s [ws IH]]; [by exists []|].
  cbn [Units.trimEnd]. destruct (Units.trimEnd s) as [|d r] eqn:E.
  - destruct (whitespace c).
    + by exists (c :: s).
    + exists ws. by rewrite IH.
  - exists ws. by rewrite <- app_comm_cons, <- IH.
Qed.

Lemma trim_run_of (s : list code_unit) : Units.run_of (Units.trim s) s.
Proof.
  destruct (trimStart_units_split s) as [l Hl].
  destruct (trimEnd_units_split (Units.trimStart s)) as [r Hr].
  exists l, r. unfold Units.trim. by rewrite <- Hr.
Qed.

Lemma run_of_trans (a b c : list code_unit) :
  Units.run_of a b -> Units.run_of b c -> Units.run_of a c.
Proof.
  intros (p1 & q1 & ->) (p2 & q2 & ->).
  exists (p2 ++ p1), (q1 ++ q2). by rewrite <- !app_assoc.
Qed.

Lemma run_of_map (f : code_unit -> code_unit) (a b : list code_unit) :
  Units.run_of a b -> Units.run_of (List.map f a) (List.map f b).
Proof.
  intros (p & q & ->). exists (List.map f p), (List.map f q).
  by rewrite !List.map_app.
Qed.

Lemma map_app_split (f : code_unit -> code_unit) (s x y : list code_unit) :
  List.map f s = x ++ y ->
  exists a b, s = a ++ b /\ List.map f a = x /\ List.map f b = y.
Proof.
  revert s. induction x as [|c x IH]; intros s H.
  - by exists [], s.
  - destruct s as [|d s]; [discriminate|].
    injection H as Hc Hs.
    destruct (IH _ Hs) as (a & b & -> & Ha & Hb).
    exists (d :: a), b. cbn [List.map]. by rewrite Hc, Ha.
Qed.

Lemma field_run_of_text (d : Units.Office) (f : list code_unit) :
  f = Units.name d \/ f = Units.address d \/ f = Units.phone d ->
  Units.run_of f
    (Units.name d ++ [SPACE] ++ Units.address d ++ [SPACE] ++ Units.phone d).
Proof.
  intros [-> | [-> | ->]].
  - by exists [], ([SPACE] ++ Units.address d ++ [SPACE] ++ Units.phone d).
  - exists (Units.name d ++ [SPACE]), ([SPACE] ++ Units.phone d).
    by rewrite <- !app_assoc.
  - exists (Units.name d ++ [SPACE] ++ Units.address d ++ [SPACE]), [].
    by rewrite app_nil_r, <- !app_assoc.
Qed.

Lemma filter_all {B} (p : B -> bool) (l : list B) :
  (forall x, p x = true) -> List.filter p l = l.
Proof.
  intros Hp. induction l as [|x l IH]; [done|].
  cbn [List.filter]. by rewrite Hp, IH.
Qed.

(** C1, as the code has it: for a query whose trimmed form is not
    empty, the result is the subsequence of the offices, in their
    order, kept by a test that holds exactly of the offices whose name,
    address and phone, joined in that order by single spaces and
    lowercased as one string, contain the lowercased trimmed query as a
    run of code units. Where [toLowerCase] acts code unit by code unit,
    these are exactly the offices whose joined text contains the
    lowercased trimmed query as a case-insensitive substring. *)
Theorem filterDmvs_lowercased_containment
    (offices : list Units.Office) (query : list code_unit) :
  Units.trim query <> [] ->
  exists keep : Units.Office -> bool,
    Units.filterDmvs offices query = List.filter keep offices
    /\ (forall d,
           keep d = true
           <-> Units.run_of (toLowerCase (Units.trim query))
                 (toLowerCase
                    (Units.name d ++ [SPACE] ++ Units.address d
                       ++ [SPACE] ++ Units.phone d)))
    /\ (Units.unitwise ->
        forall d,
          keep d = true
          <-> Units.contains_ci
                (Units.name d ++ [SPACE] ++ Units.address d
                   ++ [SPACE] ++ Units.phone d)
                (toLowerCase (Units.trim query))).
Proof.
  intros _.
  exists (fun d => Units.includes (toLowerCase (Units.office_text d))
                     (toLowerCase (Units.trim query))).
  split; [|split].
  - unfold Units.filterDmvs.
    destruct (toLowerCase (Units.trim query)) as [|c q] eqn:E; [|done].
    symmetry. apply filter_all. intros d.
    apply includes_units_spec. by exists [], (toLowerCase (Units.office_text d)).
  - intros d. apply includes_units_spec.
  - intros (f & Hidem & Hmap) d. rewrite includes_units_spec.
    unfold Units.office_text, Units.contains_ci, Units.case_variant.
    rewrite !Hmap. split.
    + intros (pre & post & H).
      apply map_app_split in H as (a & b' & Htext & Ha & Hb).
      apply map_app_split in Hb as (m & b & -> & Hm & Hb).
      exists m. split; [by exists a, b|].
      rewrite !Hmap, Hm, List.map_map.
      apply List.map_ext. intros u. by rewrite Hidem.
    + intros (mid & Hrun & Hcv). rewrite !Hmap, List.map_map in Hcv.
      rewrite (List.map_ext (fun u => f (f u)) f) in Hcv by done.
      rewrite <- Hcv. by apply run_of_map.
Qed.

(** C7, as the code has it: where [toLowerCase] acts code unit by code
    unit, an office of the list is in the result for every non-empty
    query that is a case variant of some run of its name, of its address
    or of its phone. *)
Theorem filterDmvs_finds_unitwise_substring
    (offices : list Units.Office) (o : Units.Office) (s : list code_unit) :
  Units.unitwise ->
  In o offices ->
  s <> [] ->
  Units.contains_ci (Units.name o) s \/ Units.contains_ci (Units.address o) s
    \/ Units.contains_ci (Units.phone o) s ->
  In o (Units.filterDmvs offices s).
Proof.
  intros (f & _ & Hmap) Hin _ Hfield. unfold Units.filterDmvs.
  destruct (toLowerCase (Units.trim s)) as [|c q] eqn:E; [done|].
  apply filter_In. split; [done|]. rewrite <- E.
  apply includes_units_spec.
  assert (exists fld,
             (fld = Units.name o \/ fld = Units.address o
              \/ fld = Units.phone o)
             /\ Units.contains_ci fld s) as (fld & Hfld & mid & Hrun & Hcv)
    by (destruct Hfield as [H | [H | H]]; eauto 6).
  unfold Units.case_variant in Hcv. rewrite !Hmap in *.
  apply run_of_trans with (List.map f s).
  { apply run_of_map, trim_run_of. }
  rewrite <- Hcv.
  apply run_of_trans with (List.map f fld); [by apply run_of_map|].
  by apply run_of_map, field_run_of_text.
Qed.

End UnitsFacts.

(** ** The 8-bit filter is the filter at the alphabet of Latin-1 *)

Section Latin1Facts.

Import Sample.

Lemma units_of_app (a b : string) :
  units_of (a +:+ b) = units_of a ++ units_of b.
Proof.
  induction a as [|c a IH]; [done|].
  rewrite app_cons. unfold units_of in *. cbn. by rewrite IH.
Qed.

Lemma units_of_lower (s : string) :
  units_of (JS.toLowerCase s) = List.map JS.lower_unit (units_of s).
Proof.
  induction s as [|c s IH]; [done|]. unfold units_of in *. cbn.
  by rewrite IH.
Qed.

Lemma units_of_trimStart (s : string) :
  units_of (JS.trimStart s) = Units.trimStart (A := Latin1) (units_of s).
Proof.
  induction s as [|c s IH]; [done|].
  unfold units_of in *. cbn. by destruct (JS.is_whitespace c).
Qed.

Lemma units_of_trimEnd (s : string) :
  units_of (JS.trimEnd s) = Units.trimEnd (A := Latin1) (units_of s).
Proof.
  induction s as [|c s IH]; [done|].
  unfold units_of in *. cbn. rewrite <- IH.
  destruct (JS.trimEnd s); cbn; [|done].
  by destruct (JS.is_whitespace c).
Qed.

Lemma units_of_trim (s : string) :
  units_of (JS.trim s) = Units.trim (A := Latin1) (units_of s).
Proof.
  unfold JS.trim, Units.trim. by rewrite units_of_trimEnd, units_of_trimStart.
Qed.

Lemma prefix_startsWith (s t : string) :
  String.prefix t s = Units.startsWith (A := Latin1) (units_of s) (units_of t).
Proof.
  revert s. induction t as [|a t IH]; intros s; [by destruct s|].
  destruct s as [|b s]; [done|].
  unfold units_of in *. cbn. rewrite <- IH.
  unfold bool_decide, decide_rel. cbn. unfold Ascii.eq_dec.
  by destruct (ascii_dec a b).
Qed.

Lemma includes_units (s t : string) :
  JS.includes s t = Units.includes (A := Latin1) (units_of s) (units_of t).
Proof.
  induction s as [|c s IH]; rewrite includes_unfold, prefix_startsWith.
  - done.
  - change (units_of (String c s)) with (c :: units_of s).
    cbn [Units.includes]. by rewrite IH.
Qed.

Lemma units_of_office_text (d : DmvOffice) :
  units_of (office_text d) = Units.office_text (office_units d).
Proof.
  unfold office_text, Units.office_text. by rewrite !units_of_app.
Qed.

Lemma filter_map_comm {B C} (f : B -> C) (p : C -> bool) (l : list B) :
  List.filter p (List.map f l) = List.map f (List.filter (fun x => p (f x)) l).
Proof.
  induction l as [|x l IH]; [done|]. cbn. destruct (p (f x)); cbn; by rewrite IH.
Qed.

(** [filterDmvs] on strings of code units below 256 is the filter over
    alphabets at [Latin1]. *)
Lemma filterDmvs_over_Latin1 (offices : list DmvOffice) (query : string) :
  List.map office_units (filterDmvs offices query)
  = Units.filterDmvs (A := Latin1) (List.map office_units offices)
      (units_of query).
Proof.
  unfold filterDmvs, Units.filterDmvs.
  change (@toLowerCase Latin1) with (List.map JS.lower_unit).
  rewrite <- units_of_trim, <- units_of_lower.
  destruct (JS.toLowerCase (JS.trim query)) as [|c q] eqn:E; [done|].
  change (units_of (String c q)) with (c :: units_of q).
  cbn [JS.not_string]. rewrite filter_map_comm. f_equal.
  apply List.filter_ext. intros d.
  rewrite includes_units, units_of_lower, units_of_office_text.
  done.
Qed.

Lemma Latin1_unitwise : Units.unitwise (A := Latin1).
Proof. exists JS.lower_unit. split; [apply lower_unit_idem | done]. Qed.

Lemma filterDmvs_lowercased_containment_witness :
  Units.trim (A := Latin1) (units_of " Gravois") <> []
  /\ exists keep : Units.Office -> bool,
       Units.filterDmvs (A := Latin1)
         [office_units afton; office_units clayton] (units_of " Gravois")
       = List.filter keep [office_units afton; office_units clayton]
       /\ (forall d,
              keep d = true
              <-> Units.run_of
                    (toLowerCase (Units.trim (A := Latin1) (units_of " Gravois")))
                    (toLowerCase
                       (Units.name d ++ [SPACE] ++ Units.address d
                          ++ [SPACE] ++ Units.phone d)))
       /\ (Units.unitwise (A := Latin1) ->
           forall d,
             keep d = true
             <-> Units.contains_ci
                   (Units.name d ++ [SPACE] ++ Units.address d
                      ++ [SPACE] ++ Units.phone d)
                   (toLowerCase
                      (Units.trim (A := Latin1) (units_of " Gravois")))).
Proof.
  split; [discriminate|].
  apply (filterDmvs_lowercased_containment (A := Latin1)). discriminate.
Defined.

Lemma filterDmvs_finds_unitwise_substring_witness :
  Units.unitwise (A := Latin1)
  /\ In (office_units clayton) [office_units afton; office_units clayton]
  /\ units_of " meramec AVE" <> []
  /\ In (office_units clayton)
       (Units.filterDmvs (A := Latin1)
          [office_units afton; office_units clayton]
          (units_of " meramec AVE")).
Proof.
  assert (Units.unitwise (A := Latin1)) as Hunit.
  { exists JS.lower_unit. split; [apply lower_unit_idem | reflexivity]. }
  split; [exact Hunit|].
  split; [right; left; reflexivity|]. split; [discriminate|].
  apply (filterDmvs_finds_unitwise_substring (A := Latin1)).
  - exact Hunit.
  - right; left; reflexivity.
  - discriminate.
  - right; left. exists (units_of " Meramec Ave"). split.
    + by exists (units_of "141 N"), (units_of " Ste 201, Clayton").
    + reflexivity.
Defined.

(** The two offices of the specification's scenario, over [Latin1]. *)
Example filterDmvs_units_gravois :
  Units.filterDmvs (A := Latin1)
    [office_units afton; office_units clayton] (units_of "gravois")
  = [office_units afton].
Proof. reflexivity. Qed.

End Latin1Facts.

(** ** Text beyond Latin-1: the final sigma *)

Section FinalSigma.

(** C1 as stated fails. The office named in Greek capitals has in its
    joined text the run capital sigma, a case variant of the lowercased
    query, which is the small sigma; the lowercased text ends the word
    in the final sigma, and the office is not in the result. *)
Lemma final_sigma_office_is_dropped :
  Units.trim (A := Utf16.alphabet) [Utf16.CAPITAL_SIGMA] <> []
  /\ Units.contains_ci (A := Utf16.alphabet)
       (Units.name Utf16.odos_office ++ [SPACE]
          ++ Units.address Utf16.odos_office ++ [SPACE]
          ++ Units.phone Utf16.odos_office)
       (toLowerCase (Units.trim (A := Utf16.alphabet) [Utf16.CAPITAL_SIGMA]))
  /\ Units.filterDmvs (A := Utf16.alphabet)
       [Utf16.odos_office] [Utf16.CAPITAL_SIGMA] = [].
Proof.
  split; [discriminate|]. split; [|reflexivity].
  exists [Utf16.CAPITAL_SIGMA]. split; [|reflexivity].
  by exists [927; 916; 927]%N,
            ([SPACE] ++ Units.address Utf16.odos_office ++ [SPACE]
               ++ Units.phone Utf16.odos_office).
Qed.

(** C7 as stated fails. Capital sigma is a non-empty run of the
    office's name, letter for letter, and the office is not in the
    result of the filter for it. *)
Lemma exact_substring_is_missed :
  In Utf16.odos_office [Utf16.odos_office]
  /\ [Utf16.CAPITAL_SIGMA] <> []
  /\ Units.run_of (A := Utf16.alphabet)
       [Utf16.CAPITAL_SIGMA] (Units.name Utf16.odos_office)
  /\ Units.contains_ci (A := Utf16.alphabet)
       (Units.name Utf16.odos_office) [Utf16.CAPITAL_SIGMA]
  /\ ~ In Utf16.odos_office
         (Units.filterDmvs (A := Utf16.alphabet)
            [Utf16.odos_office] [Utf16.CAPITAL_SIGMA]).
Proof.
  assert (Units.run_of (A := Utf16.alphabet)
            [Utf16.CAPITAL_SIGMA] (Units.name Utf16.odos_office)) as Hrun
    by (by exists [927; 916; 927]%N, []).
  split; [by left|]. split; [discriminate|]. split; [exact Hrun|].
  split; [by exists [Utf16.CAPITAL_SIGMA]|].
  intros [].
Qed.

(** The whole name as the query does find the office: the lowercased
    name ends in the final sigma on both sides. *)
Example whole_name_is_found :
  Units.filterDmvs (A := Utf16.alphabet) [Utf16.odos_office] Utf16.ODOS
  = [Utf16.odos_office].
Proof. reflexivity. Qed.

(** On this alphabet [toLowerCase] does not act code unit by code unit. *)
Lemma Utf16_not_unitwise : ~ Units.unitwise (A := Utf16.alphabet).
Proof.
  intros (f & _ & Hmap).
  assert (f 931%N = 963%N) as H1
    by (specialize (Hmap [931%N]); cbv in Hmap; congruence).
  assert (f 931%N = 962%N) as H2
    by (specialize (Hmap Utf16.ODOS); cbv in Hmap; congruence).
  congruence.
Qed.

End FinalSigma.
